(** * Status tracking of pipelines and jobs ([eta/core/status.py])

    A shallow embedding of the status model of ETA: the classes
    [StatusMessage], [JobStatus] and [PipelineStatus], their constructors,
    their state transitions, the publish hook and the reconstruction of
    instances from JSON dictionaries ([from_dict]).

    Python objects are mutable and are handed around by reference: the
    active job of a pipeline is the very object that sits at the end of
    its [jobs] list, and the publish callback receives the pipeline
    itself.  The embedding therefore keeps [JobStatus] and
    [PipelineStatus] objects in a store, addressed by references, and
    every method is a computation over that store which either returns a
    value or raises an exception. *)

From Stdlib Require Import ZArith String Ascii List.
From stdpp Require Import base tactics option list strings sorting.

Import ListNotations.
Set Warnings "-register-all".
Local Open Scope string_scope.
Local Open Scope list_scope.

(** ** Python values *)

(** The values that attributes hold and that a JSON document is made of
    (numbers being integers).  A dictionary is an association list in
    insertion order, as an [OrderedDict] is. *)
Inductive pyval : Type :=
| PNone
| PBool (b : bool)
| PInt (n : Z)
| PStr (s : string)
| PList (items : list pyval)
| PDict (entries : list (string * pyval)).

(** Truth value of an object, as [or] and [if] test it. *)
Definition truthy (v : pyval) : bool :=
  match v with
  | PNone => false
  | PBool b => b
  | PInt n => negb (Z.eqb n 0)
  | PStr s => match s with EmptyString => false | String _ _ => true end
  | PList items => match items with [] => false | _ :: _ => true end
  | PDict entries => match entries with [] => false | _ :: _ => true end
  end.

(** The value under key [k], if any. *)
Fixpoint dict_lookup (k : string) (entries : list (string * pyval)) : option pyval :=
  match entries with
  | [] => None
  | (k', v) :: rest => if String.eqb k k' then Some v else dict_lookup k rest
  end.

(** ** Exceptions and results *)

(** [Exception] stands for whatever else a callback raises.  A Python
    reference always denotes an object; [InvalidReference] is what a
    method gives here on a reference that denotes none in the store. *)
Inductive exn : Type :=
| KeyError (key : string)
| TypeError
| Exception (payload : pyval)
| InvalidReference.

Inductive result (A : Type) : Type :=
| Ok (a : A)
| Raise (e : exn).
Arguments Ok {A} a.
Arguments Raise {A} e.

(** ** Objects *)

(** A reference to a [JobStatus] object, to a [PipelineStatus] object and
    to an object of the client that is registered as publish callback (a
    function, or any other object: nothing is checked at registration);
    in the attribute that holds such an object or [None], an [option]
    tells which. *)
Abbreviation jref := nat (only parsing).
Abbreviation pref := nat (only parsing).
Abbreviation callback := nat (only parsing).

Module PipelineState.
Definition READY := PStr "READY".
Definition QUEUED := PStr "QUEUED".
Definition RUNNING := PStr "RUNNING".
Definition FAILED := PStr "FAILED".
Definition COMPLETE := PStr "COMPLETE".
End PipelineState.

Module JobState.
Definition READY := PStr "READY".
Definition QUEUED := PStr "QUEUED".
Definition SKIPPED := PStr "SKIPPED".
Definition RUNNING := PStr "RUNNING".
Definition FAILED := PStr "FAILED".
Definition COMPLETE := PStr "COMPLETE".
End JobState.

Module StatusMessage.
Record t : Type := mk {
  message : pyval;
  time : pyval
}.
End StatusMessage.

Module JobStatus.
Record t : Type := mk {
  name : pyval;
  state : pyval;
  start_time : pyval;
  complete_time : pyval;
  fail_time : pyval;
  messages : list StatusMessage.t
}.

Definition set_state (v : pyval) (o : t) : t :=
  mk (name o) v (start_time o) (complete_time o) (fail_time o) (messages o).
Definition set_start_time (v : pyval) (o : t) : t :=
  mk (name o) (state o) v (complete_time o) (fail_time o) (messages o).
Definition set_complete_time (v : pyval) (o : t) : t :=
  mk (name o) (state o) (start_time o) v (fail_time o) (messages o).
Definition set_fail_time (v : pyval) (o : t) : t :=
  mk (name o) (state o) (start_time o) (complete_time o) v (messages o).
Definition set_messages (v : list StatusMessage.t) (o : t) : t :=
  mk (name o) (state o) (start_time o) (complete_time o) (fail_time o) v.
End JobStatus.

Module PipelineStatus.
(** [J] is what stands for a job: a reference in the store, the
    [JobStatus] object itself in a snapshot. *)
Record t (J : Type) : Type := mk {
  name : pyval;
  state : pyval;
  start_time : pyval;
  complete_time : pyval;
  fail_time : pyval;
  messages : list StatusMessage.t;
  jobs : list J;
  _publish_callback : option callback;
  _active_job : option J
}.
Arguments mk {J}.
Arguments name {J}.
Arguments state {J}.
Arguments start_time {J}.
Arguments complete_time {J}.
Arguments fail_time {J}.
Arguments messages {J}.
Arguments jobs {J}.
Arguments _publish_callback {J}.
Arguments _active_job {J}.

Section Setters.
Context {J : Type}.
Definition set_state (v : pyval) (o : t J) : t J :=
  mk (name o) v (start_time o) (complete_time o) (fail_time o)
     (messages o) (jobs o) (_publish_callback o) (_active_job o).
Definition set_start_time (v : pyval) (o : t J) : t J :=
  mk (name o) (state o) v (complete_time o) (fail_time o)
     (messages o) (jobs o) (_publish_callback o) (_active_job o).
Definition set_complete_time (v : pyval) (o : t J) : t J :=
  mk (name o) (state o) (start_time o) v (fail_time o)
     (messages o) (jobs o) (_publish_callback o) (_active_job o).
Definition set_fail_time (v : pyval) (o : t J) : t J :=
  mk (name o) (state o) (start_time o) (complete_time o) v
     (messages o) (jobs o) (_publish_callback o) (_active_job o).
Definition set_messages (v : list StatusMessage.t) (o : t J) : t J :=
  mk (name o) (state o) (start_time o) (complete_time o) (fail_time o)
     v (jobs o) (_publish_callback o) (_active_job o).
Definition set_jobs (v : list J) (o : t J) : t J :=
  mk (name o) (state o) (start_time o) (complete_time o) (fail_time o)
     (messages o) v (_publish_callback o) (_active_job o).
Definition set__publish_callback (v : option callback) (o : t J) : t J :=
  mk (name o) (state o) (start_time o) (complete_time o) (fail_time o)
     (messages o) (jobs o) v (_active_job o).
Definition set__active_job (v : option J) (o : t J) : t J :=
  mk (name o) (state o) (start_time o) (complete_time o) (fail_time o)
     (messages o) (jobs o) (_publish_callback o) v.
End Setters.
End PipelineStatus.

(** ** The store *)

(** The objects alive in the interpreter, in the order of their creation
    (a reference is the position of its object), and the number of times
    the clock has been read. *)
Record store : Type := Store {
  clock_reads : nat;
  job_objs : list JobStatus.t;
  pipeline_objs : list (PipelineStatus.t jref)
}.

Definition empty_store : store := Store 0 [] [].

(** ** Computations *)

(** A computation runs on a store and returns or raises; what it did to
    the store before raising stays done. *)
Definition Py (A : Type) : Type := store -> result A * store.

Definition ret {A} (a : A) : Py A := fun s => (Ok a, s).

Definition raise {A} (e : exn) : Py A := fun s => (Raise e, s).

Definition bind {A B} (c : Py A) (k : A -> Py B) : Py B :=
  fun s =>
    match c s with
    | (Ok a, s') => k a s'
    | (Raise e, s') => (Raise e, s')
    end.

Declare Scope py_scope.
Delimit Scope py_scope with py.
Notation "x <- c ;; k" := (bind c (fun x => k))
  (at level 100, c at next level, right associativity) : py_scope.
Notation "c ;; k" := (bind c (fun _ => k))
  (at level 100, right associativity) : py_scope.
Local Open Scope py_scope.

(** [[f(x) for x in xs]]: the elements in order, stopping at the first
    exception. *)
Fixpoint for_each {A B} (f : A -> Py B) (xs : list A) : Py (list B) :=
  match xs with
  | [] => ret []
  | x :: rest =>
      y <- f x ;;
      ys <- for_each f rest ;;
      ret (y :: ys)
  end.

(** Creation of an object: it takes the next free reference. *)
Definition new_job (o : JobStatus.t) : Py jref :=
  fun s => (Ok (length (job_objs s)),
            Store (clock_reads s) (job_objs s ++ [o]) (pipeline_objs s)).

Definition new_pipeline (o : PipelineStatus.t jref) : Py pref :=
  fun s => (Ok (length (pipeline_objs s)),
            Store (clock_reads s) (job_objs s) (pipeline_objs s ++ [o])).

(** Reading the attributes of an object. *)
Definition read_pipeline (self : pref) : Py (PipelineStatus.t jref) :=
  fun s =>
    match pipeline_objs s !! self with
    | Some o => (Ok o, s)
    | None => (Raise InvalidReference, s)
    end.

(** Assignment to an attribute of an object, in place. *)
Definition update_job (self : jref) (f : JobStatus.t -> JobStatus.t) : Py unit :=
  fun s =>
    match job_objs s !! self with
    | Some o => (Ok tt, Store (clock_reads s) (<[self := f o]> (job_objs s)) (pipeline_objs s))
    | None => (Raise InvalidReference, s)
    end.

Definition update_pipeline (self : pref)
    (f : PipelineStatus.t jref -> PipelineStatus.t jref) : Py unit :=
  fun s =>
    match pipeline_objs s !! self with
    | Some o => (Ok tt, Store (clock_reads s) (job_objs s) (<[self := f o]> (pipeline_objs s)))
    | None => (Raise InvalidReference, s)
    end.

(** [d[k]]. *)
Definition getitem (d : pyval) (k : string) : Py pyval :=
  match d with
  | PDict entries =>
      match dict_lookup k entries with
      | Some v => ret v
      | None => raise (KeyError k)
      end
  | _ => raise TypeError
  end.

(** The elements that [for _d in v] goes through. *)
Definition iterate (v : pyval) : Py (list pyval) :=
  match v with
  | PList items => ret items
  | PDict entries => ret (map (fun kv => PStr (fst kv)) entries)
  | PStr s => ret (map (fun c => PStr (String c EmptyString)) (list_ascii_of_string s))
  | _ => raise TypeError
  end.

(** [a or b]: [b] is evaluated only when [a] is false. *)
Definition or_else (a : pyval) (b : Py pyval) : Py pyval :=
  if truthy a then ret a else b.

(** ** Sample data *)

(** A clock that gives the seconds of one minute, and callbacks: the
    one at 0 fails, the others mark the pipeline they are given.  The
    one at 2 is an object that is callable and false (an empty
    collection of listeners with a [__call__], say); the others are
    true, as functions are. *)
Definition sample_isotime (n : nat) : string :=
  String.append "2024-01-01T00:00:0" (String (ascii_of_nat (48 + n mod 10)) EmptyString).

Definition sample_invoke (f : callback) (status : pref) : Py pyval :=
  match f with
  | 0 => raise (Exception (PStr "monitor unreachable"))
  | S _ => update_pipeline status (PipelineStatus.set_state (PStr "SEEN")) ;; ret PNone
  end.

Definition sample_truth_value (f : callback) : Py bool :=
  ret (negb (Nat.eqb f 2)).

(** A job that has just been created, alone in the store. *)
Definition job1 : JobStatus.t :=
  JobStatus.mk (PStr "job1") JobState.QUEUED PNone PNone PNone [].

Definition job_store : store := Store 0 [job1] [].

(** A pipeline that has just been created, without a callback, with the
    marking callback and with the failing one. *)
Definition quiet_store : store :=
  Store 0 []
    [PipelineStatus.mk (PStr "demo") PipelineState.QUEUED PNone PNone PNone [] [] None None].

Definition watched_store : store :=
  Store 0 []
    [PipelineStatus.mk (PStr "demo") PipelineState.QUEUED PNone PNone PNone [] []
       (Some 1) None].

Definition seen_store : store :=
  Store 0 []
    [PipelineStatus.mk (PStr "demo") (PStr "SEEN") PNone PNone PNone [] []
       (Some 1) None].

Definition failing_store : store :=
  Store 0 []
    [PipelineStatus.mk (PStr "demo") PipelineState.QUEUED PNone PNone PNone [] []
       (Some 0) None].

(** The same pipeline with the callable that is false registered, and
    what a call of that callable would leave. *)
Definition muted_store : store :=
  Store 0 []
    [PipelineStatus.mk (PStr "demo") PipelineState.QUEUED PNone PNone PNone [] []
       (Some 2) None].


(** [PipelineStatus("demo")] after [add_job("job1")]: the store, the
    snapshot of the pipeline, its keyed representation, and the store
    once the pipeline has been reconstructed from it. *)
Definition demo_pipeline : PipelineStatus.t jref :=
  PipelineStatus.mk (PStr "demo") PipelineState.QUEUED PNone PNone PNone []
    [0] None (Some 0).

Definition demo_store : store := Store 0 [job1] [demo_pipeline].

Definition demo_snapshot : PipelineStatus.t JobStatus.t :=
  PipelineStatus.mk (PStr "demo") PipelineState.QUEUED PNone PNone PNone []
    [job1] None (Some job1).

Definition demo_reconstructed : PipelineStatus.t JobStatus.t :=
  PipelineStatus.mk (PStr "demo") PipelineState.QUEUED PNone PNone PNone []
    [job1] None None.

Definition demo_doc : pyval :=
  PDict [("name", PStr "demo"); ("state", PStr "QUEUED");
         ("start_time", PNone); ("complete_time", PNone); ("fail_time", PNone);
         ("messages", PList []);
         ("jobs",
          PList [PDict [("name", PStr "job1"); ("state", PStr "QUEUED");
                        ("start_time", PNone); ("complete_time", PNone);
                        ("fail_time", PNone); ("messages", PList [])]])].

Definition demo_reloaded_store : store :=
  Store 0 [job1; job1]
    [demo_pipeline;
     PipelineStatus.mk (PStr "demo") PipelineState.QUEUED PNone PNone PNone []
       [1] None None].

(** The document of a started pipeline with one running job, and what
    [from_dict] makes of it in an empty store. *)
Definition example_doc : pyval :=
  PDict [("name", PStr "demo"); ("state", PStr "RUNNING");
         ("start_time", PStr "2024-01-01T00:00:00");
         ("complete_time", PNone); ("fail_time", PNone);
         ("messages",
          PList [PDict [("message", PStr "Pipeline started");
                        ("time", PStr "2024-01-01T00:00:00")]]);
         ("jobs",
          PList [PDict [("name", PStr "job1"); ("state", PStr "RUNNING");
                        ("start_time", PStr "2024-01-01T00:00:01");
                        ("complete_time", PNone); ("fail_time", PNone);
                        ("messages",
                         PList [PDict [("message", PStr "Job started");
                                       ("time", PStr "2024-01-01T00:00:01")]])]])].

Definition example_pipeline : PipelineStatus.t jref :=
  PipelineStatus.mk (PStr "demo") (PStr "RUNNING") (PStr "2024-01-01T00:00:00")
    PNone PNone
    [StatusMessage.mk (PStr "Pipeline started") (PStr "2024-01-01T00:00:00")]
    [0] None None.

Definition example_store : store :=
  Store 0
    [JobStatus.mk (PStr "job1") (PStr "RUNNING") (PStr "2024-01-01T00:00:01")
       PNone PNone
       [StatusMessage.mk (PStr "Job started") (PStr "2024-01-01T00:00:01")]]
    [example_pipeline].

(** ** The classes *)

Section Status.

(** [eta.core.utils.get_isotime] reads the wall clock and renders it as
    ISO 8601 text.  The clock is outside the program: [isotime n] is the
    text that the clock gives at its [n]-th reading. *)
Variable isotime : nat -> string.

(** ISO 8601 text is never empty. *)
Definition clock_ok : Prop := forall n, isotime n <> "".

(** What a callable does when it is called with a pipeline. *)
Variable invoke : callback -> pref -> Py pyval.

(** The truth value of a registered object, as [if] tests it: Python
    asks the object ([__bool__], or else [__len__]), which is code of
    the client as well and may raise.  A function is true. *)
Variable truth_value : callback -> Py bool.

Definition get_isotime : Py pyval :=
  fun s => (Ok (PStr (isotime (clock_reads s))),
            Store (S (clock_reads s)) (job_objs s) (pipeline_objs s)).

(** *** StatusMessage *)

(** [StatusMessage(message, time=None)]; the default of [time] is
    passed as [PNone]. *)
Definition StatusMessage_init (message time : pyval) : Py StatusMessage.t :=
  t <- or_else time get_isotime ;;
  ret (StatusMessage.mk message t).

Definition StatusMessage_attributes : list string := ["message"; "time"].

Definition StatusMessage_from_dict (d : pyval) : Py StatusMessage.t :=
  message <- getitem d "message" ;;
  time <- getitem d "time" ;;
  StatusMessage_init message time.

(** *** JobStatus *)

Definition JobStatus_init (name : pyval) : Py jref :=
  new_job (JobStatus.mk name JobState.QUEUED PNone PNone PNone []).

Definition JobStatus_add_message (self : jref) (message : pyval) : Py pyval :=
  status_message <- StatusMessage_init message PNone ;;
  update_job self
    (fun o => JobStatus.set_messages (JobStatus.messages o ++ [status_message]) o) ;;
  ret (StatusMessage.time status_message).

Definition JobStatus_skip (self : jref) (message : pyval) : Py pyval :=
  JobStatus_add_message self message ;;
  update_job self (JobStatus.set_state JobState.SKIPPED) ;;
  ret PNone.

Definition JobStatus_start (self : jref) (message : pyval) : Py pyval :=
  t <- JobStatus_add_message self message ;;
  update_job self (JobStatus.set_start_time t) ;;
  update_job self (JobStatus.set_state JobState.RUNNING) ;;
  ret PNone.

Definition JobStatus_complete (self : jref) (message : pyval) : Py pyval :=
  t <- JobStatus_add_message self message ;;
  update_job self (JobStatus.set_complete_time t) ;;
  update_job self (JobStatus.set_state JobState.COMPLETE) ;;
  ret PNone.

Definition JobStatus_fail (self : jref) (message : pyval) : Py pyval :=
  t <- JobStatus_add_message self message ;;
  update_job self (JobStatus.set_fail_time t) ;;
  update_job self (JobStatus.set_state JobState.FAILED) ;;
  ret PNone.

(** The default values of the [message] parameters. *)
Definition JobStatus_skip_message := PStr "Job skipped".
Definition JobStatus_start_message := PStr "Job started".
Definition JobStatus_complete_message := PStr "Job completed".
Definition JobStatus_fail_message := PStr "Job failed".

Definition JobStatus_attributes : list string :=
  ["name"; "state"; "start_time"; "complete_time"; "fail_time"; "messages"].

Definition JobStatus_from_dict (d : pyval) : Py jref :=
  name <- getitem d "name" ;;
  job_status <- JobStatus_init name ;;
  state <- getitem d "state" ;;
  update_job job_status (JobStatus.set_state state) ;;
  start_time <- getitem d "start_time" ;;
  update_job job_status (JobStatus.set_start_time start_time) ;;
  complete_time <- getitem d "complete_time" ;;
  update_job job_status (JobStatus.set_complete_time complete_time) ;;
  fail_time <- getitem d "fail_time" ;;
  update_job job_status (JobStatus.set_fail_time fail_time) ;;
  ds <- getitem d "messages" ;;
  items <- iterate ds ;;
  messages <- for_each StatusMessage_from_dict items ;;
  update_job job_status (JobStatus.set_messages messages) ;;
  ret job_status.

(** *** PipelineStatus *)

Definition PipelineStatus_init (name : pyval) : Py pref :=
  new_pipeline
    (PipelineStatus.mk name PipelineState.QUEUED PNone PNone PNone [] [] None None).

(** [set_publish_callback(None)] clears the slot. *)
Definition PipelineStatus_set_publish_callback
    (self : pref) (publish_callback : option callback) : Py pyval :=
  update_pipeline self (PipelineStatus.set__publish_callback publish_callback) ;;
  ret PNone.

(** [if self._publish_callback: self._publish_callback(self)].  The
    test is on the truth value of what is registered: [None] is false,
    any other object is asked.  The attribute is read again for the
    call, after the test; calling [None] is a [TypeError]. *)
Definition PipelineStatus_publish (self : pref) : Py pyval :=
  o <- read_pipeline self ;;
  match PipelineStatus._publish_callback o with
  | Some f =>
      registered <- truth_value f ;;
      if (registered : bool) then
        o' <- read_pipeline self ;;
        match PipelineStatus._publish_callback o' with
        | Some g => invoke g self ;; ret PNone
        | None => raise TypeError
        end
      else ret PNone
  | None => ret PNone
  end.

Definition PipelineStatus_active_job (self : pref) : Py (option jref) :=
  o <- read_pipeline self ;;
  ret (PipelineStatus._active_job o).

(** [self.jobs.append(self._active_job)] appends the object that the
    line before has stored in [_active_job]. *)
Definition PipelineStatus_add_job (self : pref) (name : pyval) : Py jref :=
  job <- JobStatus_init name ;;
  update_pipeline self (PipelineStatus.set__active_job (Some job)) ;;
  update_pipeline self
    (fun o => PipelineStatus.set_jobs (PipelineStatus.jobs o ++ [job]) o) ;;
  ret job.

Definition PipelineStatus_add_message (self : pref) (message : pyval) : Py pyval :=
  status_message <- StatusMessage_init message PNone ;;
  update_pipeline self
    (fun o => PipelineStatus.set_messages
                (PipelineStatus.messages o ++ [status_message]) o) ;;
  ret (StatusMessage.time status_message).

Definition PipelineStatus_start (self : pref) (message : pyval) : Py pyval :=
  t <- PipelineStatus_add_message self message ;;
  update_pipeline self (PipelineStatus.set_start_time t) ;;
  update_pipeline self (PipelineStatus.set_state PipelineState.RUNNING) ;;
  ret PNone.

Definition PipelineStatus_complete (self : pref) (message : pyval) : Py pyval :=
  t <- PipelineStatus_add_message self message ;;
  update_pipeline self (PipelineStatus.set_complete_time t) ;;
  update_pipeline self (PipelineStatus.set_state PipelineState.COMPLETE) ;;
  ret PNone.

Definition PipelineStatus_fail (self : pref) (message : pyval) : Py pyval :=
  t <- PipelineStatus_add_message self message ;;
  update_pipeline self (PipelineStatus.set_fail_time t) ;;
  update_pipeline self (PipelineStatus.set_state PipelineState.FAILED) ;;
  ret PNone.

Definition PipelineStatus_start_message := PStr "Pipeline started".
Definition PipelineStatus_complete_message := PStr "Pipeline completed".
Definition PipelineStatus_fail_message := PStr "Pipeline failed".

Definition PipelineStatus_attributes : list string :=
  ["name"; "state"; "start_time"; "complete_time"; "fail_time"; "messages"; "jobs"].

Definition PipelineStatus_from_dict (d : pyval) : Py pref :=
  name <- getitem d "name" ;;
  pipeline_status <- PipelineStatus_init name ;;
  state <- getitem d "state" ;;
  update_pipeline pipeline_status (PipelineStatus.set_state state) ;;
  start_time <- getitem d "start_time" ;;
  update_pipeline pipeline_status (PipelineStatus.set_start_time start_time) ;;
  complete_time <- getitem d "complete_time" ;;
  update_pipeline pipeline_status (PipelineStatus.set_complete_time complete_time) ;;
  fail_time <- getitem d "fail_time" ;;
  update_pipeline pipeline_status (PipelineStatus.set_fail_time fail_time) ;;
  ds <- getitem d "messages" ;;
  items <- iterate ds ;;
  messages <- for_each StatusMessage_from_dict items ;;
  update_pipeline pipeline_status (PipelineStatus.set_messages messages) ;;
  js <- getitem d "jobs" ;;
  items <- iterate js ;;
  jobs <- for_each JobStatus_from_dict items ;;
  update_pipeline pipeline_status (PipelineStatus.set_jobs jobs) ;;
  ret pipeline_status.

(** *** The external representation *)

(** Modelled from the spec: the projection ([Serializable.serialize] of
    [eta.core.serial]) is not among the sources.  Every entity maps to a
    keyed representation that lists, in the order of [attributes()], each
    attribute name with the value of the attribute; the nested
    collections [messages] and [jobs] are projected element by element
    by the same contract, and the other values stand for themselves. *)
Definition project (getattr : string -> option pyval) (attributes : list string)
    : option pyval :=
  PDict <$> mapM (fun a => pair a <$> getattr a) attributes.

Definition StatusMessage_getattr (self : StatusMessage.t) (a : string) : option pyval :=
  if String.eqb a "message" then Some (StatusMessage.message self)
  else if String.eqb a "time" then Some (StatusMessage.time self)
  else None.

Definition StatusMessage_serialize (self : StatusMessage.t) : option pyval :=
  project (StatusMessage_getattr self) StatusMessage_attributes.

Definition JobStatus_getattr (self : JobStatus.t) (a : string) : option pyval :=
  if String.eqb a "name" then Some (JobStatus.name self)
  else if String.eqb a "state" then Some (JobStatus.state self)
  else if String.eqb a "start_time" then Some (JobStatus.start_time self)
  else if String.eqb a "complete_time" then Some (JobStatus.complete_time self)
  else if String.eqb a "fail_time" then Some (JobStatus.fail_time self)
  else if String.eqb a "messages" then
    PList <$> mapM StatusMessage_serialize (JobStatus.messages self)
  else None.

Definition JobStatus_serialize (self : JobStatus.t) : option pyval :=
  project (JobStatus_getattr self) JobStatus_attributes.

(** The attributes of a pipeline whose jobs are given as objects. *)
Definition PipelineStatus_getattr (self : PipelineStatus.t JobStatus.t) (a : string)
    : option pyval :=
  if String.eqb a "name" then Some (PipelineStatus.name self)
  else if String.eqb a "state" then Some (PipelineStatus.state self)
  else if String.eqb a "start_time" then Some (PipelineStatus.start_time self)
  else if String.eqb a "complete_time" then Some (PipelineStatus.complete_time self)
  else if String.eqb a "fail_time" then Some (PipelineStatus.fail_time self)
  else if String.eqb a "messages" then
    PList <$> mapM StatusMessage_serialize (PipelineStatus.messages self)
  else if String.eqb a "jobs" then
    PList <$> mapM JobStatus_serialize (PipelineStatus.jobs self)
  else None.

(** *** Snapshots *)

(** The object behind a job reference, and a pipeline with every job
    reference replaced by the object it denotes: the whole structure
    of the aggregate, apart from where its objects live. *)
Definition job_at (s : store) (j : jref) : option JobStatus.t := job_objs s !! j.

Definition snapshot (s : store) (o : PipelineStatus.t jref)
    : option (PipelineStatus.t JobStatus.t) :=
  js ← mapM (job_at s) (PipelineStatus.jobs o);
  active ← match PipelineStatus._active_job o with
           | Some j => Some <$> job_at s j
           | None => Some None
           end;
  Some (PipelineStatus.mk
          (PipelineStatus.name o) (PipelineStatus.state o)
          (PipelineStatus.start_time o) (PipelineStatus.complete_time o)
          (PipelineStatus.fail_time o) (PipelineStatus.messages o)
          js (PipelineStatus._publish_callback o) active).

Definition pipeline_at (s : store) (p : pref) : option (PipelineStatus.t JobStatus.t) :=
  pipeline_objs s !! p ≫= snapshot s.

(** The part of a snapshot that [attributes()] lists. *)
Definition public (o : PipelineStatus.t JobStatus.t) : PipelineStatus.t JobStatus.t :=
  PipelineStatus.set__active_job None (PipelineStatus.set__publish_callback None o).

Definition PipelineStatus_serialize (s : store) (self : pref) : option pyval :=
  o ← pipeline_at s self;
  project (PipelineStatus_getattr o) PipelineStatus_attributes.

(** *** Runs *)

(** The calls that a client of the module makes: the constructors, the
    reconstructions and the methods, on any references and with any
    arguments.  [publish] has no transition of its own: without a
    callback it does nothing and with one it does what the truth test
    and the call of the callback, which are client code, do. *)
Inductive call : Type :=
| NewStatusMessage (message time : pyval)
| LoadStatusMessage (d : pyval)
| NewJobStatus (name : pyval)
| LoadJobStatus (d : pyval)
| JobAddMessage (self : jref) (message : pyval)
| JobSkip (self : jref) (message : pyval)
| JobStart (self : jref) (message : pyval)
| JobComplete (self : jref) (message : pyval)
| JobFail (self : jref) (message : pyval)
| NewPipelineStatus (name : pyval)
| LoadPipelineStatus (d : pyval)
| SetPublishCallback (self : pref) (publish_callback : option callback)
| ActiveJob (self : pref)
| AddJob (self : pref) (name : pyval)
| AddMessage (self : pref) (message : pyval)
| Start (self : pref) (message : pyval)
| Complete (self : pref) (message : pyval)
| Fail (self : pref) (message : pyval).

Definition after {A} (c : Py A) (s : store) : store := snd (c s).

(** The store that a call leaves, whether it returns or raises. *)
Definition run (c : call) : store -> store :=
  match c with
  | NewStatusMessage message time => after (StatusMessage_init message time)
  | LoadStatusMessage d => after (StatusMessage_from_dict d)
  | NewJobStatus name => after (JobStatus_init name)
  | LoadJobStatus d => after (JobStatus_from_dict d)
  | JobAddMessage self message => after (JobStatus_add_message self message)
  | JobSkip self message => after (JobStatus_skip self message)
  | JobStart self message => after (JobStatus_start self message)
  | JobComplete self message => after (JobStatus_complete self message)
  | JobFail self message => after (JobStatus_fail self message)
  | NewPipelineStatus name => after (PipelineStatus_init name)
  | LoadPipelineStatus d => after (PipelineStatus_from_dict d)
  | SetPublishCallback self cb => after (PipelineStatus_set_publish_callback self cb)
  | ActiveJob self => after (PipelineStatus_active_job self)
  | AddJob self name => after (PipelineStatus_add_job self name)
  | AddMessage self message => after (PipelineStatus_add_message self message)
  | Start self message => after (PipelineStatus_start self message)
  | Complete self message => after (PipelineStatus_complete self message)
  | Fail self message => after (PipelineStatus_fail self message)
  end.

(** The store after a sequence of calls, and the stores that sequences
    of calls reach from the empty one. *)
Definition runs (cs : list call) (s : store) : store :=
  fold_left (fun s c => run c s) cs s.

Inductive reachable : store -> Prop :=
| reachable_empty : reachable empty_store
| reachable_call s c : reachable s -> reachable (run c s).

(** A [StatusMessage] instance is what the constructor returns. *)
Definition reachable_message (m : StatusMessage.t) : Prop :=
  exists message time s, fst (StatusMessage_init message time s) = Ok m.

(** *** Invariants *)

(** With a clock that gives ISO 8601 text, the time of a message is
    never a false value. *)
Definition wf_message (m : StatusMessage.t) : Prop :=
  clock_ok -> truthy (StatusMessage.time m) = true.

Definition wf_job (o : JobStatus.t) : Prop :=
  Forall wf_message (JobStatus.messages o).

(** The jobs of a pipeline are among the first [n] job objects, and
    [jobs] lists them in the order of their creation. *)
Definition wf_pipeline (n : nat) (o : PipelineStatus.t jref) : Prop :=
  Forall wf_message (PipelineStatus.messages o)
  /\ Forall (fun j => j < n) (PipelineStatus.jobs o)
  /\ (forall j, PipelineStatus._active_job o = Some j -> j < n)
  /\ StronglySorted lt (PipelineStatus.jobs o).

Definition wf_store (s : store) : Prop :=
  Forall wf_job (job_objs s)
  /\ Forall (wf_pipeline (length (job_objs s))) (pipeline_objs s).

(** The active job, when there is one, is the last of [jobs]. *)
Definition tracks_last (o : PipelineStatus.t jref) : Prop :=
  forall j, PipelineStatus._active_job o = Some j ->
            last (PipelineStatus.jobs o) = Some j.

(** There is no active job exactly as long as [jobs] is empty. *)
Definition tracks_jobs (o : PipelineStatus.t jref) : Prop :=
  match PipelineStatus._active_job o with
  | None => PipelineStatus.jobs o = []
  | Some j => last (PipelineStatus.jobs o) = Some j
  end.

(** Every message logged in [s] is still there, at its place, in [s']. *)
Definition keeps_messages (s s' : store) : Prop :=
  (forall j o, job_objs s !! j = Some o ->
     exists o', job_objs s' !! j = Some o'
                /\ JobStatus.messages o `prefix_of` JobStatus.messages o')
  /\ (forall p o, pipeline_objs s !! p = Some o ->
     exists o', pipeline_objs s' !! p = Some o'
                /\ PipelineStatus.messages o `prefix_of` PipelineStatus.messages o').

(** *** The stores that the methods leave *)

(** The text of the clock at its next reading, and the store once the
    clock has been read. *)
Definition stamp (s : store) : pyval := PStr (isotime (clock_reads s)).

Definition tick (s : store) : store :=
  Store (S (clock_reads s)) (job_objs s) (pipeline_objs s).

Definition put_job (self : jref) (o : JobStatus.t) (s : store) : store :=
  Store (clock_reads s) (<[self := o]> (job_objs s)) (pipeline_objs s).

Definition put_pipeline (self : pref) (o : PipelineStatus.t jref) (s : store) : store :=
  Store (clock_reads s) (job_objs s) (<[self := o]> (pipeline_objs s)).

(** The message that a method logs in store [s]. *)
Definition logged (message : pyval) (s : store) : StatusMessage.t :=
  StatusMessage.mk message (stamp s).

(** The four transitions of a job, for statements about all of them. *)
Inductive transition : Type := Skip | Started | Completed | Failed.

Definition JobStatus_transition (tr : transition) : jref -> pyval -> Py pyval :=
  match tr with
  | Skip => JobStatus_skip
  | Started => JobStatus_start
  | Completed => JobStatus_complete
  | Failed => JobStatus_fail
  end.

(** The job [o] once transition [tr] has logged [m]. *)
Definition moved (tr : transition) (m : StatusMessage.t) (o : JobStatus.t) : JobStatus.t :=
  let t := StatusMessage.time m in
  let log := JobStatus.messages o ++ [m] in
  match tr with
  | Skip =>
      JobStatus.mk (JobStatus.name o) JobState.SKIPPED (JobStatus.start_time o)
        (JobStatus.complete_time o) (JobStatus.fail_time o) log
  | Started =>
      JobStatus.mk (JobStatus.name o) JobState.RUNNING t
        (JobStatus.complete_time o) (JobStatus.fail_time o) log
  | Completed =>
      JobStatus.mk (JobStatus.name o) JobState.COMPLETE (JobStatus.start_time o)
        t (JobStatus.fail_time o) log
  | Failed =>
      JobStatus.mk (JobStatus.name o) JobState.FAILED (JobStatus.start_time o)
        (JobStatus.complete_time o) t log
  end.

(** [s'] is [s] with the clock further on, the job objects [js] and
    the pipeline objects [ps] created, and nothing else changed. *)
Definition extends (s s' : store) (js : list JobStatus.t)
    (ps : list (PipelineStatus.t jref)) : Prop :=
  clock_reads s <= clock_reads s'
  /\ job_objs s' = job_objs s ++ js
  /\ pipeline_objs s' = pipeline_objs s ++ ps.

(** What [from_dict] leaves in a pipeline object, on the way or at the
    end: jobs among the first [n] job objects, no active job and no
    publish callback. *)
Definition loaded (n : nat) (o : PipelineStatus.t jref) : Prop :=
  wf_pipeline n o
  /\ PipelineStatus._active_job o = None
  /\ PipelineStatus._publish_callback o = None.

(** What one call does to the store [s].  It creates objects; or it
    logs messages in one job, the other attributes of the job being
    free; or it logs messages in one pipeline and leaves [jobs] and the
    active job of the pipeline alone; or it adds a job to a pipeline.
    The index is the pipeline, if any, to which the call may add a
    job. *)
Inductive effect (s : store) : option pref -> store -> Prop :=
| effect_create a s' js ps :
    extends s s' js ps ->
    Forall wf_job js ->
    Forall (loaded (length (job_objs s'))) ps ->
    effect s a s'
| effect_job a self o o' ms n :
    job_objs s !! self = Some o ->
    JobStatus.messages o' = JobStatus.messages o ++ ms ->
    Forall wf_message ms ->
    clock_reads s <= n ->
    effect s a (Store n (<[self := o']> (job_objs s)) (pipeline_objs s))
| effect_pipeline a self o o' ms n :
    pipeline_objs s !! self = Some o ->
    PipelineStatus.messages o' = PipelineStatus.messages o ++ ms ->
    Forall wf_message ms ->
    PipelineStatus.jobs o' = PipelineStatus.jobs o ->
    PipelineStatus._active_job o' = PipelineStatus._active_job o ->
    clock_reads s <= n ->
    effect s a (Store n (job_objs s) (<[self := o']> (pipeline_objs s)))
| effect_add_job self o name :
    pipeline_objs s !! self = Some o ->
    effect s (Some self)
      (Store (clock_reads s)
         (job_objs s ++ [JobStatus.mk name JobState.QUEUED PNone PNone PNone []])
         (<[self :=
              PipelineStatus.set_jobs
                (PipelineStatus.jobs o ++ [length (job_objs s)])
                (PipelineStatus.set__active_job (Some (length (job_objs s))) o)]>
            (pipeline_objs s))).

(** The pipeline to which a call adds a job. *)
Definition adds (c : call) : option pref :=
  match c with AddJob self _ => Some self | _ => None end.

(** The keyed representations, written out. *)
Definition message_doc (m : StatusMessage.t) : pyval :=
  PDict [("message", StatusMessage.message m); ("time", StatusMessage.time m)].

Definition job_doc (o : JobStatus.t) : pyval :=
  PDict [("name", JobStatus.name o); ("state", JobStatus.state o);
         ("start_time", JobStatus.start_time o);
         ("complete_time", JobStatus.complete_time o);
         ("fail_time", JobStatus.fail_time o);
         ("messages", PList (map message_doc (JobStatus.messages o)))].

Definition pipeline_doc (o : PipelineStatus.t JobStatus.t) : pyval :=
  PDict [("name", PipelineStatus.name o); ("state", PipelineStatus.state o);
         ("start_time", PipelineStatus.start_time o);
         ("complete_time", PipelineStatus.complete_time o);
         ("fail_time", PipelineStatus.fail_time o);
         ("messages", PList (map message_doc (PipelineStatus.messages o)));
         ("jobs", PList (map job_doc (PipelineStatus.jobs o)))].

(** *** Sequences of calls and the transitions of a pipeline *)

(** The messages that successive calls log, the first of them at the
    [n]-th reading of the clock. *)
Fixpoint stamped (n : nat) (messages : list pyval) : list StatusMessage.t :=
  match messages with
  | [] => []
  | message :: rest =>
      StatusMessage.mk message (PStr (isotime n)) :: stamped (S n) rest
  end.

(** The three transitions of a pipeline, for statements about all of
    them. *)
Inductive pipeline_transition : Type := PStarted | PCompleted | PFailed.

Definition PipelineStatus_transition (tr : pipeline_transition)
    : pref -> pyval -> Py pyval :=
  match tr with
  | PStarted => PipelineStatus_start
  | PCompleted => PipelineStatus_complete
  | PFailed => PipelineStatus_fail
  end.

(** The job that [JobStatus(name)] creates. *)
Definition fresh_job (name : pyval) : JobStatus.t :=
  JobStatus.mk name JobState.QUEUED PNone PNone PNone [].

(** *** What a reconstruction has read *)

(** The message [m] holds what document [d] holds under [message] and
    [time], a false time being replaced by a text of the clock. *)
Definition message_loaded_from (d : pyval) (m : StatusMessage.t) : Prop :=
  exists entries t,
    d = PDict entries
    /\ dict_lookup "message" entries = Some (StatusMessage.message m)
    /\ dict_lookup "time" entries = Some t
    /\ (if truthy t then StatusMessage.time m = t
        else exists n, StatusMessage.time m = PStr (isotime n)).

(** The job [o] holds, as they are, the values that document [d] holds
    under the keys of the projection, and one message for each element
    of what it holds under [messages]. *)
Definition job_loaded_from (d : pyval) (o : JobStatus.t) : Prop :=
  exists entries ds items,
    d = PDict entries
    /\ dict_lookup "name" entries = Some (JobStatus.name o)
    /\ dict_lookup "state" entries = Some (JobStatus.state o)
    /\ dict_lookup "start_time" entries = Some (JobStatus.start_time o)
    /\ dict_lookup "complete_time" entries = Some (JobStatus.complete_time o)
    /\ dict_lookup "fail_time" entries = Some (JobStatus.fail_time o)
    /\ dict_lookup "messages" entries = Some ds
    /\ iterate ds = ret items
    /\ Forall2 message_loaded_from items (JobStatus.messages o).

(** Every object of [s] is still in [s'], a job under its name, a
    pipeline under its name and with the jobs it had, in their order,
    at the head of its [jobs]. *)
Definition keeps_identity (s s' : store) : Prop :=
  (forall j o, job_objs s !! j = Some o ->
     exists o', job_objs s' !! j = Some o'
                /\ JobStatus.name o' = JobStatus.name o)
  /\ (forall p o, pipeline_objs s !! p = Some o ->
     exists o', pipeline_objs s' !! p = Some o'
                /\ PipelineStatus.name o' = PipelineStatus.name o
                /\ PipelineStatus.jobs o `prefix_of` PipelineStatus.jobs o').



(** ** Proofs *)

(** *** Running the primitives *)

Lemma StatusMessage_init_truthy message time s :
  truthy time = true ->
  StatusMessage_init message time s = (Ok (StatusMessage.mk message time), s).
Proof. intros H. unfold StatusMessage_init, or_else, bind. by rewrite H. Qed.

Lemma StatusMessage_init_falsy message time s :
  truthy time = false ->
  StatusMessage_init message time s = (Ok (logged message s), tick s).
Proof. intros H. unfold StatusMessage_init, or_else, bind. by rewrite H. Qed.

Lemma update_job_run s self f o :
  job_objs s !! self = Some o ->
  update_job self f s = (Ok tt, put_job self (f o) s).
Proof. intros H. unfold update_job. by rewrite H. Qed.

Lemma update_pipeline_run s self f o :
  pipeline_objs s !! self = Some o ->
  update_pipeline self f s = (Ok tt, put_pipeline self (f o) s).
Proof. intros H. unfold update_pipeline. by rewrite H. Qed.

Lemma put_job_lookup s self o o' :
  job_objs s !! self = Some o -> job_objs (put_job self o' s) !! self = Some o'.
Proof.
  intros H. simpl. apply list_lookup_insert_eq. by eapply lookup_lt_Some.
Qed.

Lemma put_job_put_job s self o o' :
  put_job self o' (put_job self o s) = put_job self o' s.
Proof. unfold put_job; simpl. by rewrite list_insert_insert_eq. Qed.

Lemma put_pipeline_lookup s self o o' :
  pipeline_objs s !! self = Some o ->
  pipeline_objs (put_pipeline self o' s) !! self = Some o'.
Proof.
  intros H. simpl. apply list_lookup_insert_eq. by eapply lookup_lt_Some.
Qed.

Lemma put_pipeline_put_pipeline s self o o' :
  put_pipeline self o' (put_pipeline self o s) = put_pipeline self o' s.
Proof. unfold put_pipeline; simpl. by rewrite list_insert_insert_eq. Qed.

(** *** Running the methods of a job *)

Lemma JobStatus_add_message_run s self message o :
  job_objs s !! self = Some o ->
  JobStatus_add_message self message s =
    (Ok (stamp s),
     put_job self
       (JobStatus.set_messages (JobStatus.messages o ++ [logged message s]) o)
       (tick s)).
Proof.
  intros H. unfold JobStatus_add_message, bind.
  rewrite StatusMessage_init_falsy by done.
  by rewrite (update_job_run (tick s) self _ o).
Qed.

Lemma JobStatus_add_message_invalid s self message :
  job_objs s !! self = None ->
  JobStatus_add_message self message s = (Raise InvalidReference, tick s).
Proof.
  intros H. unfold JobStatus_add_message, bind.
  rewrite StatusMessage_init_falsy by done.
  unfold update_job. simpl. by rewrite H.
Qed.

Lemma JobStatus_transition_run tr s self message o :
  job_objs s !! self = Some o ->
  JobStatus_transition tr self message s =
    (Ok PNone, put_job self (moved tr (logged message s) o) (tick s)).
Proof.
  intros H.
  destruct tr; simpl;
    unfold JobStatus_skip, JobStatus_start, JobStatus_complete, JobStatus_fail;
    unfold bind at 1; rewrite (JobStatus_add_message_run s self message o H);
    unfold bind;
    repeat (erewrite update_job_run by (eapply put_job_lookup; exact H);
            rewrite ?put_job_put_job);
    done.
Qed.

Lemma JobStatus_transition_invalid tr s self message :
  job_objs s !! self = None ->
  JobStatus_transition tr self message s = (Raise InvalidReference, tick s).
Proof.
  intros H.
  destruct tr; simpl;
    unfold JobStatus_skip, JobStatus_start, JobStatus_complete, JobStatus_fail;
    unfold bind at 1; by rewrite (JobStatus_add_message_invalid s self message H).
Qed.

(** *** Running the methods of a pipeline *)

Lemma PipelineStatus_add_message_run s self message o :
  pipeline_objs s !! self = Some o ->
  PipelineStatus_add_message self message s =
    (Ok (stamp s),
     put_pipeline self
       (PipelineStatus.set_messages
          (PipelineStatus.messages o ++ [logged message s]) o)
       (tick s)).
Proof.
  intros H. unfold PipelineStatus_add_message, bind.
  rewrite StatusMessage_init_falsy by done.
  by rewrite (update_pipeline_run (tick s) self _ o).
Qed.

Lemma PipelineStatus_add_message_invalid s self message :
  pipeline_objs s !! self = None ->
  PipelineStatus_add_message self message s = (Raise InvalidReference, tick s).
Proof.
  intros H. unfold PipelineStatus_add_message, bind.
  rewrite StatusMessage_init_falsy by done.
  unfold update_pipeline. simpl. by rewrite H.
Qed.

Ltac run_pipeline_transition H :=
  unfold bind at 1; erewrite PipelineStatus_add_message_run by exact H;
  unfold bind;
  repeat (erewrite update_pipeline_run by (eapply put_pipeline_lookup; exact H);
          rewrite ?put_pipeline_put_pipeline);
  done.

Lemma PipelineStatus_start_run s self message o :
  pipeline_objs s !! self = Some o ->
  PipelineStatus_start self message s =
    (Ok PNone,
     put_pipeline self
       (PipelineStatus.set_state PipelineState.RUNNING
          (PipelineStatus.set_start_time (stamp s)
             (PipelineStatus.set_messages
                (PipelineStatus.messages o ++ [logged message s]) o)))
       (tick s)).
Proof. intros H. unfold PipelineStatus_start. run_pipeline_transition H. Qed.

Lemma PipelineStatus_complete_run s self message o :
  pipeline_objs s !! self = Some o ->
  PipelineStatus_complete self message s =
    (Ok PNone,
     put_pipeline self
       (PipelineStatus.set_state PipelineState.COMPLETE
          (PipelineStatus.set_complete_time (stamp s)
             (PipelineStatus.set_messages
                (PipelineStatus.messages o ++ [logged message s]) o)))
       (tick s)).
Proof. intros H. unfold PipelineStatus_complete. run_pipeline_transition H. Qed.

Lemma PipelineStatus_fail_run s self message o :
  pipeline_objs s !! self = Some o ->
  PipelineStatus_fail self message s =
    (Ok PNone,
     put_pipeline self
       (PipelineStatus.set_state PipelineState.FAILED
          (PipelineStatus.set_fail_time (stamp s)
             (PipelineStatus.set_messages
                (PipelineStatus.messages o ++ [logged message s]) o)))
       (tick s)).
Proof. intros H. unfold PipelineStatus_fail. run_pipeline_transition H. Qed.

Lemma PipelineStatus_transition_invalid s self message :
  pipeline_objs s !! self = None ->
  PipelineStatus_start self message s = (Raise InvalidReference, tick s)
  /\ PipelineStatus_complete self message s = (Raise InvalidReference, tick s)
  /\ PipelineStatus_fail self message s = (Raise InvalidReference, tick s).
Proof.
  intros H.
  unfold PipelineStatus_start, PipelineStatus_complete, PipelineStatus_fail, bind.
  by rewrite (PipelineStatus_add_message_invalid s self message H).
Qed.

Lemma PipelineStatus_set_publish_callback_run s self cb o :
  pipeline_objs s !! self = Some o ->
  PipelineStatus_set_publish_callback self cb s =
    (Ok PNone, put_pipeline self (PipelineStatus.set__publish_callback cb o) s).
Proof.
  intros H. unfold PipelineStatus_set_publish_callback, bind.
  by rewrite (update_pipeline_run s self _ o).
Qed.

Lemma PipelineStatus_set_publish_callback_invalid s self cb :
  pipeline_objs s !! self = None ->
  PipelineStatus_set_publish_callback self cb s = (Raise InvalidReference, s).
Proof.
  intros H. unfold PipelineStatus_set_publish_callback, bind, update_pipeline.
  by rewrite H.
Qed.

(** The job that [JobStatus(name)] creates, and the store with one
    more job. *)
Lemma JobStatus_init_run s name :
  JobStatus_init name s =
    (Ok (length (job_objs s)),
     Store (clock_reads s)
       (job_objs s ++ [JobStatus.mk name JobState.QUEUED PNone PNone PNone []])
       (pipeline_objs s)).
Proof. done. Qed.

Lemma PipelineStatus_add_job_run s self name o :
  pipeline_objs s !! self = Some o ->
  PipelineStatus_add_job self name s =
    (Ok (length (job_objs s)),
     Store (clock_reads s)
       (job_objs s ++ [JobStatus.mk name JobState.QUEUED PNone PNone PNone []])
       (<[self :=
            PipelineStatus.set_jobs (PipelineStatus.jobs o ++ [length (job_objs s)])
              (PipelineStatus.set__active_job (Some (length (job_objs s))) o)]>
          (pipeline_objs s))).
Proof.
  intros H. unfold PipelineStatus_add_job, bind. rewrite JobStatus_init_run.
  erewrite update_pipeline_run by exact H.
  erewrite update_pipeline_run by (eapply put_pipeline_lookup; exact H).
  by rewrite put_pipeline_put_pipeline.
Qed.

Lemma PipelineStatus_add_job_invalid s self name :
  pipeline_objs s !! self = None ->
  PipelineStatus_add_job self name s =
    (Raise InvalidReference,
     Store (clock_reads s)
       (job_objs s ++ [JobStatus.mk name JobState.QUEUED PNone PNone PNone []])
       (pipeline_objs s)).
Proof.
  intros H. unfold PipelineStatus_add_job, bind. rewrite JobStatus_init_run.
  unfold update_pipeline. simpl. by rewrite H.
Qed.

(** *** Running [from_dict] *)

Lemma bind_ret {A B} (a : A) (k : A -> Py B) s : bind (ret a) k s = k a s.
Proof. done. Qed.

Lemma bind_raise {A B} e (k : A -> Py B) s : bind (raise e) k s = (Raise e, s).
Proof. done. Qed.

Lemma bind_run {A B} (c : Py A) (k : A -> Py B) s a s' :
  c s = (Ok a, s') -> bind c k s = k a s'.
Proof. intros H. unfold bind. by rewrite H. Qed.

Lemma bind_run_raise {A B} (c : Py A) (k : A -> Py B) s e s' :
  c s = (Raise e, s') -> bind c k s = (Raise e, s').
Proof. intros H. unfold bind. by rewrite H. Qed.

Lemma getitem_cases d k :
  (exists v, getitem d k = ret v) \/ (exists e, getitem d k = raise e).
Proof.
  destruct d; simpl; try (right; eexists; done).
  destruct (dict_lookup k entries); [left | right]; eexists; done.
Qed.

Lemma iterate_cases v :
  (exists items, iterate v = ret items) \/ (exists e, iterate v = raise e).
Proof. destruct v; simpl; try (right; eexists; done); left; eexists; done. Qed.

Lemma update_job_last n J P o f :
  update_job (length J) f (Store n (J ++ [o]) P) = (Ok tt, Store n (J ++ [f o]) P).
Proof.
  unfold update_job; simpl. rewrite list_lookup_middle by done.
  do 2 f_equal. by rewrite (insert_app_r_alt J [o] (length J)), Nat.sub_diag.
Qed.

Lemma update_pipeline_last n J P o f :
  update_pipeline (length P) f (Store n J (P ++ [o])) = (Ok tt, Store n J (P ++ [f o])).
Proof.
  unfold update_pipeline; simpl. rewrite list_lookup_middle by done.
  do 2 f_equal. by rewrite (insert_app_r_alt P [o] (length P)), Nat.sub_diag.
Qed.

Lemma extends_refl s : extends s s [] [].
Proof. unfold extends. by rewrite !app_nil_r. Qed.

Lemma extends_trans s1 s2 s3 js ps js' ps' :
  extends s1 s2 js ps -> extends s2 s3 js' ps' ->
  extends s1 s3 (js ++ js') (ps ++ ps').
Proof.
  intros (? & HJ & HP) (? & HJ' & HP'). unfold extends.
  rewrite HJ', HP', HJ, HP, !app_assoc. split; [lia | done].
Qed.

Lemma wf_logged message s : wf_message (logged message s).
Proof.
  intros Hclock. unfold logged, stamp; simpl.
  pose proof (Hclock (clock_reads s)). by destruct (isotime _).
Qed.

Lemma StatusMessage_init_shape message time s :
  exists m, StatusMessage_init message time s = (Ok m, (after (StatusMessage_init message time) s))
    /\ wf_message m /\ StatusMessage.message m = message
    /\ extends s (after (StatusMessage_init message time) s) [] [].
Proof.
  unfold after. destruct (truthy time) eqn:Ht.
  - rewrite StatusMessage_init_truthy by done. eexists; split; [done |].
    split; [by intros _ |]. split; [done |]. apply extends_refl.
  - rewrite StatusMessage_init_falsy by done. eexists; split; [done |].
    split; [apply wf_logged |]. split; [done |].
    unfold extends; simpl. rewrite !app_nil_r. split; [lia | done].
Qed.

Lemma StatusMessage_from_dict_shape d s :
  extends s (after (StatusMessage_from_dict d) s) [] []
  /\ forall m, fst (StatusMessage_from_dict d s) = Ok m -> wf_message m.
Proof.
  unfold after, StatusMessage_from_dict.
  destruct (getitem_cases d "message") as [[v ->] | [e ->]];
    [rewrite bind_ret | rewrite bind_raise; split; [apply extends_refl | done]].
  destruct (getitem_cases d "time") as [[t ->] | [e ->]];
    [rewrite bind_ret | rewrite bind_raise; split; [apply extends_refl | done]].
  destruct (StatusMessage_init_shape v t s) as (m & Hrun & Hwf & _ & Hext).
  rewrite Hrun. split; [done |]. simpl. by intros ? [= <-].
Qed.

Lemma for_each_messages_shape items s :
  extends s (after (for_each StatusMessage_from_dict items) s) [] []
  /\ forall ms, fst (for_each StatusMessage_from_dict items s) = Ok ms ->
                Forall wf_message ms.
Proof.
  revert s. induction items as [| d items IH]; intros s.
  - split; [apply extends_refl |]. simpl. by intros ? [= <-].
  - unfold after. simpl.
    destruct (StatusMessage_from_dict_shape d s) as [Hext Hwf].
    unfold after in Hext.
    destruct (StatusMessage_from_dict d s) as [[m | e] s1] eqn:Hd.
    + erewrite bind_run by exact Hd.
      destruct (IH s1) as [Hext' Hwf']. unfold after in Hext'.
      destruct (for_each StatusMessage_from_dict items s1) as [[ms | e] s2] eqn:Hrest.
      * erewrite bind_run by exact Hrest. simpl. split.
        -- apply (extends_trans _ _ _ [] [] [] [] Hext Hext').
        -- intros ? [= <-]. constructor; [by apply Hwf | by apply Hwf'].
      * erewrite bind_run_raise by exact Hrest. simpl. split; [| done].
        apply (extends_trans _ _ _ [] [] [] [] Hext Hext').
    + erewrite bind_run_raise by exact Hd. by split.
Qed.

(** A run that stops after the object [o] has been created. *)
Ltac stopped :=
  simpl; eexists; split;
  [ split; [simpl; lia | split; simpl; [reflexivity | by rewrite ?app_nil_r]]
  | split; [by repeat constructor | done] ].

Ltac step_getitem d k v :=
  destruct (getitem_cases d k) as [[v ->] | [? ->]];
  [rewrite bind_ret | rewrite bind_raise; try stopped].

Lemma JobStatus_from_dict_shape d s :
  exists js, extends s (after (JobStatus_from_dict d) s) js []
    /\ Forall wf_job js
    /\ forall r, fst (JobStatus_from_dict d s) = Ok r ->
                 r = length (job_objs s) /\ length js = 1.
Proof.
  destruct s as [n J P]. unfold after, JobStatus_from_dict.
  step_getitem d "name" name.
  2: { exists []. split; [apply extends_refl | by split]. }
  erewrite bind_run by apply JobStatus_init_run. simpl job_objs; simpl clock_reads;
    simpl pipeline_objs.
  step_getitem d "state" state.
  erewrite bind_run by apply update_job_last.
  step_getitem d "start_time" start_time.
  erewrite bind_run by apply update_job_last.
  step_getitem d "complete_time" complete_time.
  erewrite bind_run by apply update_job_last.
  step_getitem d "fail_time" fail_time.
  erewrite bind_run by apply update_job_last.
  step_getitem d "messages" ds.
  destruct (iterate_cases ds) as [[items ->] | [e ->]];
    [rewrite bind_ret | rewrite bind_raise; stopped].
  match goal with |- context [bind (for_each _ _) _ ?s1] =>
    destruct (for_each_messages_shape items s1) as [Hext Hwf];
    unfold after in Hext;
    destruct (for_each StatusMessage_from_dict items s1) as [[ms | e] [n2 J2 P2]] eqn:Hms
  end; destruct Hext as (Hn & HJ & HP); simpl in Hn, HJ, HP;
    rewrite app_nil_r in HJ, HP; subst J2 P2.
  - erewrite bind_run by exact Hms.
    erewrite bind_run by apply update_job_last.
    simpl. eexists; split; [| split].
    + split; [simpl; lia | split; simpl; [reflexivity | by rewrite app_nil_r]].
    + constructor; [| constructor]. by apply Hwf.
    + by intros ? [= <-].
  - erewrite bind_run_raise by exact Hms. stopped.
Qed.

Lemma for_each_jobs_shape items s :
  exists js, extends s (after (for_each JobStatus_from_dict items) s) js []
    /\ Forall wf_job js
    /\ forall rs, fst (for_each JobStatus_from_dict items s) = Ok rs ->
                  rs = seq (length (job_objs s)) (length js).
Proof.
  revert s. induction items as [| d items IH]; intros s.
  - exists []. split; [apply extends_refl |]. split; [done |].
    simpl. by intros ? [= <-].
  - unfold after. simpl.
    destruct (JobStatus_from_dict_shape d s) as (js1 & Hext & Hwf & Hok).
    unfold after in Hext.
    destruct (JobStatus_from_dict d s) as [[r | e] s1] eqn:Hd.
    + erewrite bind_run by exact Hd.
      destruct (IH s1) as (js2 & Hext' & Hwf' & Hok'). unfold after in Hext'.
      pose proof (extends_trans _ _ _ _ _ _ _ Hext Hext') as Hall.
      destruct (Hok r eq_refl) as [-> Hlen].
      destruct (for_each JobStatus_from_dict items s1) as [[rs | e] s2] eqn:Hrest.
      * erewrite bind_run by exact Hrest. simpl in *.
        exists (js1 ++ js2). split; [exact Hall |]. split; [by apply Forall_app_2 |].
        intros ? [= <-]. rewrite (Hok' rs eq_refl).
        destruct Hext as (_ & -> & _).
        rewrite !length_app, Hlen. simpl. do 2 f_equal. lia.
      * erewrite bind_run_raise by exact Hrest. simpl in *.
        exists (js1 ++ js2). split; [exact Hall |]. split; [by apply Forall_app_2 | done].
    + erewrite bind_run_raise by exact Hd. exists js1.
      split; [exact Hext |]. split; [exact Hwf | done].
Qed.

Lemma seq_sorted j n : StronglySorted lt (seq j n).
Proof.
  revert j. induction n as [| n IH]; intros j; simpl; constructor; [apply IH |].
  apply Forall_forall. intros i Hi. apply elem_of_seq in Hi. lia.
Qed.

Lemma PipelineStatus_init_run s name :
  PipelineStatus_init name s =
    (Ok (length (pipeline_objs s)),
     Store (clock_reads s) (job_objs s)
       (pipeline_objs s ++
          [PipelineStatus.mk name PipelineState.QUEUED PNone PNone PNone [] [] None None])).
Proof. done. Qed.

Ltac stopped_pipeline :=
  simpl; eexists _, _; split;
  [ split; [simpl; lia | split; simpl; [by rewrite ?app_nil_r | reflexivity]]
  | split; [ done
           | split; [ repeat constructor; simpl; by auto using Forall_nil
                    | done ] ] ].

Ltac step_getitem_pipeline d k v :=
  destruct (getitem_cases d k) as [[v ->] | [? ->]];
  [rewrite bind_ret | rewrite bind_raise; try stopped_pipeline].

Lemma PipelineStatus_from_dict_shape d s :
  exists js ps, extends s (after (PipelineStatus_from_dict d) s) js ps
    /\ Forall wf_job js
    /\ Forall (loaded (length (job_objs s) + length js)) ps
    /\ forall r, fst (PipelineStatus_from_dict d s) = Ok r ->
                 r = length (pipeline_objs s) /\ length ps = 1.
Proof.
  destruct s as [n J P]. unfold after, PipelineStatus_from_dict.
  step_getitem_pipeline d "name" name.
  2: { exists [], []. split; [apply extends_refl | by repeat split]. }
  erewrite bind_run by apply PipelineStatus_init_run.
  simpl job_objs; simpl clock_reads; simpl pipeline_objs.
  step_getitem_pipeline d "state" state.
  erewrite bind_run by apply update_pipeline_last.
  step_getitem_pipeline d "start_time" start_time.
  erewrite bind_run by apply update_pipeline_last.
  step_getitem_pipeline d "complete_time" complete_time.
  erewrite bind_run by apply update_pipeline_last.
  step_getitem_pipeline d "fail_time" fail_time.
  erewrite bind_run by apply update_pipeline_last.
  step_getitem_pipeline d "messages" ds.
  destruct (iterate_cases ds) as [[items ->] | [e ->]];
    [rewrite bind_ret | rewrite bind_raise; stopped_pipeline].
  match goal with |- context [bind (for_each _ _) _ ?s1] =>
    destruct (for_each_messages_shape items s1) as [Hext Hwf];
    unfold after in Hext;
    destruct (for_each StatusMessage_from_dict items s1) as [[ms | e] [n2 J2 P2]] eqn:Hms
  end; destruct Hext as (Hn & HJ & HP); simpl in Hn, HJ, HP;
    rewrite app_nil_r in HJ, HP; subst J2 P2.
  2: { erewrite bind_run_raise by exact Hms. stopped_pipeline. }
  erewrite bind_run by exact Hms.
  erewrite bind_run by apply update_pipeline_last.
  specialize (Hwf ms eq_refl). clear Hms.
  step_getitem_pipeline d "jobs" djs.
  destruct (iterate_cases djs) as [[jitems ->] | [e ->]];
    [rewrite bind_ret | rewrite bind_raise; stopped_pipeline].
  match goal with |- context [bind (for_each _ _) _ ?s1] =>
    destruct (for_each_jobs_shape jitems s1) as (js & Hext & Hwfj & Hok);
    unfold after in Hext;
    destruct (for_each JobStatus_from_dict jitems s1) as [[rs | e] [n3 J3 P3]] eqn:Hjs
  end; destruct Hext as (Hn' & HJ & HP); simpl in Hn', HJ, HP;
    rewrite app_nil_r in HP; subst J3 P3.
  - erewrite bind_run by exact Hjs.
    erewrite bind_run by apply update_pipeline_last.
    specialize (Hok rs eq_refl). simpl in Hok. subst rs.
    simpl. exists js. eexists [_]. split; [| split; [done | split]].
    + split; [simpl; lia | done].
    + constructor; [| constructor]. split; [| done]. split; [done |].
      simpl. split; [| split; [done | apply seq_sorted]].
      apply Forall_forall. intros j Hj. apply elem_of_seq in Hj. lia.
    + by intros ? [= <-].
  - erewrite bind_run_raise by exact Hjs.
    simpl. exists js. eexists [_]. split; [| split; [done | split]].
    + split; [simpl; lia | done].
    + constructor; [| constructor]. split; [| done]. split; [done |].
      simpl. by repeat constructor.
    + done.
Qed.

(** *** The effect of a call *)

Lemma effect_tick a s : effect s a (tick s).
Proof.
  apply (effect_create s a (tick s) [] []); try done.
  unfold extends; simpl. rewrite !app_nil_r. split; [lia | done].
Qed.

Lemma effect_refl a s : effect s a s.
Proof. apply (effect_create s a s [] []); try done. apply extends_refl. Qed.

Ltac run_with H :=
  let Hr := fresh in pose proof H as Hr; simpl in Hr; rewrite Hr; clear Hr.

Lemma run_effect c s : effect s (adds c) (run c s).
Proof.
  destruct c; simpl; unfold after.
  - (* StatusMessage(message, time) *)
    destruct (StatusMessage_init_shape message time s) as (m & _ & _ & _ & Hext).
    by apply (effect_create s _ _ [] []).
  - (* StatusMessage.from_dict(d) *)
    destruct (StatusMessage_from_dict_shape d s) as [Hext _].
    by apply (effect_create s _ _ [] []).
  - (* JobStatus(name) *)
    rewrite JobStatus_init_run. simpl.
    eapply (effect_create s _ _ [_] []); try done.
    + split; [simpl; lia | split; simpl; [done | by rewrite app_nil_r]].
    + by repeat constructor.
  - (* JobStatus.from_dict(d) *)
    destruct (JobStatus_from_dict_shape d s) as (js & Hext & Hwf & _).
    by apply (effect_create s _ _ js []).
  - (* JobStatus.add_message *)
    destruct (job_objs s !! self) as [o |] eqn:Ho.
    + rewrite (JobStatus_add_message_run s self message o Ho). simpl.
      eapply (effect_job s _ self o _ [logged message s]);
        [exact Ho | done | by repeat constructor; apply wf_logged | simpl; lia].
    + rewrite (JobStatus_add_message_invalid s self message Ho). apply effect_tick.
  - (* JobStatus.skip *)
    destruct (job_objs s !! self) as [o |] eqn:Ho.
    + run_with (JobStatus_transition_run Skip s self message o Ho). simpl.
      eapply (effect_job s _ self o _ [logged message s]);
        [exact Ho | done | by repeat constructor; apply wf_logged | simpl; lia].
    + run_with (JobStatus_transition_invalid Skip s self message Ho). apply effect_tick.
  - (* JobStatus.start *)
    destruct (job_objs s !! self) as [o |] eqn:Ho.
    + run_with (JobStatus_transition_run Started s self message o Ho). simpl.
      eapply (effect_job s _ self o _ [logged message s]);
        [exact Ho | done | by repeat constructor; apply wf_logged | simpl; lia].
    + run_with (JobStatus_transition_invalid Started s self message Ho). apply effect_tick.
  - (* JobStatus.complete *)
    destruct (job_objs s !! self) as [o |] eqn:Ho.
    + run_with (JobStatus_transition_run Completed s self message o Ho). simpl.
      eapply (effect_job s _ self o _ [logged message s]);
        [exact Ho | done | by repeat constructor; apply wf_logged | simpl; lia].
    + run_with (JobStatus_transition_invalid Completed s self message Ho).
      apply effect_tick.
  - (* JobStatus.fail *)
    destruct (job_objs s !! self) as [o |] eqn:Ho.
    + run_with (JobStatus_transition_run Failed s self message o Ho). simpl.
      eapply (effect_job s _ self o _ [logged message s]);
        [exact Ho | done | by repeat constructor; apply wf_logged | simpl; lia].
    + run_with (JobStatus_transition_invalid Failed s self message Ho). apply effect_tick.
  - (* PipelineStatus(name) *)
    rewrite PipelineStatus_init_run. simpl.
    eapply (effect_create s _ _ [] [_]); try done.
    + split; [simpl; lia | split; simpl; [by rewrite app_nil_r | done]].
    + repeat constructor; simpl; done.
  - (* PipelineStatus.from_dict(d) *)
    destruct (PipelineStatus_from_dict_shape d s) as (js & ps & Hext & Hwf & Hps & _).
    apply (effect_create s _ _ js ps); try done.
    destruct Hext as (Hn & HJ & HP). unfold after in HJ.
    by rewrite HJ, length_app.
  - (* set_publish_callback *)
    destruct (pipeline_objs s !! self) as [o |] eqn:Ho.
    + rewrite (PipelineStatus_set_publish_callback_run s self _ o Ho). simpl.
      eapply (effect_pipeline s _ self o _ []); try done. by rewrite app_nil_r.
    + rewrite (PipelineStatus_set_publish_callback_invalid s self _ Ho).
      apply effect_refl.
  - (* active_job *)
    unfold PipelineStatus_active_job, bind, read_pipeline.
    destruct (pipeline_objs s !! self); apply effect_refl.
  - (* add_job *)
    destruct (pipeline_objs s !! self) as [o |] eqn:Ho.
    + rewrite (PipelineStatus_add_job_run s self name o Ho). simpl.
      by apply effect_add_job.
    + rewrite (PipelineStatus_add_job_invalid s self name Ho). simpl.
      eapply (effect_create s _ _ [_] []); try done.
      * split; [simpl; lia | split; simpl; [done | by rewrite app_nil_r]].
      * by repeat constructor.
  - (* add_message *)
    destruct (pipeline_objs s !! self) as [o |] eqn:Ho.
    + rewrite (PipelineStatus_add_message_run s self message o Ho). simpl.
      eapply (effect_pipeline s _ self o _ [logged message s]);
        [exact Ho | done | by repeat constructor; apply wf_logged
        | done | done | simpl; lia].
    + rewrite (PipelineStatus_add_message_invalid s self message Ho).
      apply effect_tick.
  - (* start *)
    destruct (pipeline_objs s !! self) as [o |] eqn:Ho.
    + rewrite (PipelineStatus_start_run s self message o Ho). simpl.
      eapply (effect_pipeline s _ self o _ [logged message s]);
        [exact Ho | done | by repeat constructor; apply wf_logged
        | done | done | simpl; lia].
    + destruct (PipelineStatus_transition_invalid s self message Ho) as (-> & _).
      apply effect_tick.
  - (* complete *)
    destruct (pipeline_objs s !! self) as [o |] eqn:Ho.
    + rewrite (PipelineStatus_complete_run s self message o Ho). simpl.
      eapply (effect_pipeline s _ self o _ [logged message s]);
        [exact Ho | done | by repeat constructor; apply wf_logged
        | done | done | simpl; lia].
    + destruct (PipelineStatus_transition_invalid s self message Ho) as (_ & -> & _).
      apply effect_tick.
  - (* fail *)
    destruct (pipeline_objs s !! self) as [o |] eqn:Ho.
    + rewrite (PipelineStatus_fail_run s self message o Ho). simpl.
      eapply (effect_pipeline s _ self o _ [logged message s]);
        [exact Ho | done | by repeat constructor; apply wf_logged
        | done | done | simpl; lia].
    + destruct (PipelineStatus_transition_invalid s self message Ho) as (_ & _ & ->).
      apply effect_tick.
Qed.

(** *** Invariants of the runs *)

Lemma wf_pipeline_mono n m o : n <= m -> wf_pipeline n o -> wf_pipeline m o.
Proof.
  intros Hnm (Hm & Hj & Ha & Hs). split; [done |]. split; [| split; [| done]].
  - eapply Forall_impl; [exact Hj |]. simpl. lia.
  - intros j Hj'. specialize (Ha j Hj'). lia.
Qed.

Lemma wf_store_effect a s s' : effect s a s' -> wf_store s -> wf_store s'.
Proof.
  intros He [HJ HP]. destruct He as
    [a s' js ps (Hn & HJ' & HP') Hjs Hps
    | a self o o' ms n Ho Hms Hwf Hn
    | a self o o' ms n Ho Hms Hwf Hjobs Hactive Hn
    | self o name Ho ]; unfold wf_store; simpl.
  - rewrite HJ', HP'. split; [by apply Forall_app_2 |].
    apply Forall_app_2.
    + eapply Forall_impl; [exact HP |]. intros o. apply wf_pipeline_mono.
      rewrite length_app. lia.
    + rewrite <- HJ'. eapply Forall_impl; [exact Hps |]. by intros o [? _].
  - rewrite length_insert. split; [| done].
    apply Forall_insert; [done |]. unfold wf_job. rewrite Hms.
    apply Forall_app_2; [| done]. by apply (Forall_lookup_1 _ _ _ _ HJ Ho).
  - split; [done |]. apply Forall_insert; [done |].
    destruct (Forall_lookup_1 _ _ _ _ HP Ho) as (Hm & Hj & Ha & Hs).
    split; [| split; [| split]].
    + rewrite Hms. by apply Forall_app_2.
    + by rewrite Hjobs.
    + by rewrite Hactive.
    + by rewrite Hjobs.
  - rewrite length_app. simpl. split.
    + apply Forall_app_2; [done |]. by repeat constructor.
    + apply Forall_insert.
      * eapply Forall_impl; [exact HP |]. intros o'. apply wf_pipeline_mono. lia.
      * destruct (Forall_lookup_1 _ _ _ _ HP Ho) as (Hm & Hj & Ha & Hs).
        split; [done |]. simpl. split; [| split].
        -- apply Forall_app_2.
           ++ eapply Forall_impl; [exact Hj |]. simpl. lia.
           ++ repeat constructor. lia.
        -- intros j [= <-]. lia.
        -- apply StronglySorted_app_2; [| done | by repeat constructor].
           intros i j Hi Hj'. apply list_elem_of_singleton in Hj' as ->.
           by apply (proj1 (Forall_forall _ _) Hj).
Qed.

Lemma wf_store_empty : wf_store empty_store.
Proof. by split. Qed.

Lemma reachable_wf s : reachable s -> wf_store s.
Proof.
  induction 1 as [| s c _ IH]; [apply wf_store_empty |].
  eapply wf_store_effect; [apply run_effect | exact IH].
Qed.

Lemma keeps_messages_effect a s s' : effect s a s' -> keeps_messages s s'.
Proof.
  intros He. destruct He as
    [a s' js ps (Hn & HJ' & HP') Hjs Hps
    | a self o o' ms n Ho Hms Hwf Hn
    | a self o o' ms n Ho Hms Hwf Hjobs Hactive Hn
    | self o name Ho ]; split; simpl.
  - intros j o Ho. exists o. rewrite HJ'. split; [by apply lookup_app_l_Some | done].
  - intros p o Ho. exists o. rewrite HP'. split; [by apply lookup_app_l_Some | done].
  - intros j oj Hj. destruct (decide (j = self)) as [-> | Hne].
    + exists o'. split.
      * apply list_lookup_insert_eq. by eapply lookup_lt_Some.
      * rewrite Hms. replace oj with o by congruence. by apply prefix_app_r.
    + exists oj. by rewrite list_lookup_insert_ne.
  - intros p op Hp. by exists op.
  - intros j oj Hj. by exists oj.
  - intros p op Hp. destruct (decide (p = self)) as [-> | Hne].
    + exists o'. split.
      * apply list_lookup_insert_eq. by eapply lookup_lt_Some.
      * rewrite Hms. replace op with o by congruence. by apply prefix_app_r.
    + exists op. by rewrite list_lookup_insert_ne.
  - intros j oj Hj. exists oj. split; [by apply lookup_app_l_Some | done].
  - intros p op Hp. destruct (decide (p = self)) as [-> | Hne].
    + eexists. split.
      * apply list_lookup_insert_eq. by eapply lookup_lt_Some.
      * simpl. by replace op with o by congruence.
    + exists op. by rewrite list_lookup_insert_ne.
Qed.

Lemma tracks_last_effect a s s' :
  effect s a s' ->
  Forall tracks_last (pipeline_objs s) -> Forall tracks_last (pipeline_objs s').
Proof.
  intros He HP. destruct He as
    [a s' js ps (Hn & HJ' & HP') Hjs Hps
    | a self o o' ms n Ho Hms Hwf Hn
    | a self o o' ms n Ho Hms Hwf Hjobs Hactive Hn
    | self o name Ho ]; simpl; try done.
  - rewrite HP'. apply Forall_app_2; [done |].
    eapply Forall_impl; [exact Hps |]. intros o (_ & Ha & _) j. by rewrite Ha.
  - apply Forall_insert; [done |]. intros j. rewrite Hactive, Hjobs.
    by apply (Forall_lookup_1 _ _ _ _ HP Ho).
  - apply Forall_insert; [done |]. intros j. simpl. intros [= <-].
    apply last_snoc.
Qed.

(** A pipeline in which the active job tracks [jobs] stays so. *)
Lemma tracks_jobs_effect a s s' p o :
  effect s a s' -> pipeline_objs s !! p = Some o -> tracks_jobs o ->
  exists o', pipeline_objs s' !! p = Some o' /\ tracks_jobs o'.
Proof.
  intros He Hp Ht. destruct He as
    [a s' js ps (Hn & HJ' & HP') Hjs Hps
    | a self o1 o' ms n Ho Hms Hwf Hn
    | a self o1 o' ms n Ho Hms Hwf Hjobs Hactive Hn
    | self o1 name Ho ]; simpl.
  - exists o. rewrite HP'. split; [by apply lookup_app_l_Some | done].
  - by exists o.
  - destruct (decide (p = self)) as [-> | Hne].
    + exists o'. replace o1 with o in * by congruence.
      split; [apply list_lookup_insert_eq; by eapply lookup_lt_Some |].
      unfold tracks_jobs in *. by rewrite Hactive, Hjobs.
    + exists o. by rewrite list_lookup_insert_ne.
  - destruct (decide (p = self)) as [-> | Hne].
    + eexists. split; [apply list_lookup_insert_eq; by eapply lookup_lt_Some |].
      unfold tracks_jobs. simpl. apply last_snoc.
    + exists o. by rewrite list_lookup_insert_ne.
Qed.

Lemma runs_tracks_jobs cs s p o :
  pipeline_objs s !! p = Some o -> tracks_jobs o ->
  exists o', pipeline_objs (runs cs s) !! p = Some o' /\ tracks_jobs o'.
Proof.
  revert s o. induction cs as [| c cs IH]; intros s o Hp Ht; [by exists o |].
  destruct (tracks_jobs_effect _ _ _ p o (run_effect c s) Hp Ht) as (o1 & Hp1 & Ht1).
  by apply (IH (run c s) o1).
Qed.

(** A call that adds no job to pipeline [p] leaves its [jobs] and its
    active job as they are. *)
Lemma keeps_active_effect a s s' p o :
  effect s a s' -> a <> Some p -> pipeline_objs s !! p = Some o ->
  exists o', pipeline_objs s' !! p = Some o'
             /\ PipelineStatus._active_job o' = PipelineStatus._active_job o
             /\ PipelineStatus.jobs o' = PipelineStatus.jobs o.
Proof.
  intros He Ha Hp. destruct He as
    [a s' js ps (Hn & HJ' & HP') Hjs Hps
    | a self o1 o' ms n Ho Hms Hwf Hn
    | a self o1 o' ms n Ho Hms Hwf Hjobs Hactive Hn
    | self o1 name Ho ]; simpl.
  - exists o. rewrite HP'. split; [by apply lookup_app_l_Some | done].
  - by exists o.
  - destruct (decide (p = self)) as [-> | Hne].
    + exists o'. replace o with o1 by congruence.
      split; [apply list_lookup_insert_eq; by eapply lookup_lt_Some | done].
    + exists o. by rewrite list_lookup_insert_ne.
  - exists o. rewrite list_lookup_insert_ne by congruence. done.
Qed.

Lemma from_dict_private d s p s' :
  PipelineStatus_from_dict d s = (Ok p, s') ->
  exists o,
    pipeline_objs s' !! p = Some o
    /\ PipelineStatus._active_job o = None
    /\ PipelineStatus._publish_callback o = None.
Proof.
  intros Hrun.
  destruct (PipelineStatus_from_dict_shape d s) as (js & ps & Hext & _ & Hps & Hok).
  unfold after in Hext. rewrite Hrun in Hext, Hok. simpl in Hext, Hok.
  destruct (Hok p eq_refl) as [-> Hlen]. destruct Hext as (_ & _ & HP).
  destruct ps as [| o [| ? ?]]; try done.
  apply Forall_cons in Hps as [(_ & Ha & Hcb) _].
  exists o. split; [| done]. rewrite HP. by apply list_lookup_middle.
Qed.

Lemma reachable_tracks_last s :
  reachable s -> Forall tracks_last (pipeline_objs s).
Proof.
  induction 1 as [| s c _ IH]; [by constructor |].
  eapply tracks_last_effect; [apply run_effect | exact IH].
Qed.

(** *** Projection and reconstruction *)

Lemma StatusMessage_serialize_doc m : StatusMessage_serialize m = Some (message_doc m).
Proof. done. Qed.

Lemma serialize_messages_doc ms :
  mapM StatusMessage_serialize ms = Some (map message_doc ms).
Proof. induction ms as [| m ms IH]; [done |]. simpl. by rewrite IH. Qed.

Lemma JobStatus_getattr_messages o :
  JobStatus_getattr o "messages" =
    Some (PList (map message_doc (JobStatus.messages o))).
Proof. unfold JobStatus_getattr. simpl. by rewrite serialize_messages_doc. Qed.

Lemma JobStatus_serialize_doc o : JobStatus_serialize o = Some (job_doc o).
Proof.
  unfold JobStatus_serialize, project, JobStatus_attributes. simpl.
  by rewrite JobStatus_getattr_messages.
Qed.

Lemma serialize_jobs_doc os : mapM JobStatus_serialize os = Some (map job_doc os).
Proof.
  induction os as [| o os IH]; [done |]. simpl.
  by rewrite JobStatus_serialize_doc, IH.
Qed.

Lemma PipelineStatus_getattr_messages v :
  PipelineStatus_getattr v "messages" =
    Some (PList (map message_doc (PipelineStatus.messages v))).
Proof. unfold PipelineStatus_getattr. simpl. by rewrite serialize_messages_doc. Qed.

Lemma PipelineStatus_getattr_jobs v :
  PipelineStatus_getattr v "jobs" =
    Some (PList (map job_doc (PipelineStatus.jobs v))).
Proof. unfold PipelineStatus_getattr. simpl. by rewrite serialize_jobs_doc. Qed.

Lemma PipelineStatus_project_doc v :
  project (PipelineStatus_getattr v) PipelineStatus_attributes = Some (pipeline_doc v).
Proof.
  unfold project, PipelineStatus_attributes. simpl.
  by rewrite PipelineStatus_getattr_messages, PipelineStatus_getattr_jobs.
Qed.

Lemma StatusMessage_from_dict_doc m s :
  clock_ok -> wf_message m ->
  StatusMessage_from_dict (message_doc m) s = (Ok m, s).
Proof.
  intros Hclock Hm. unfold StatusMessage_from_dict, message_doc. simpl getitem.
  rewrite !bind_ret. rewrite StatusMessage_init_truthy by exact (Hm Hclock).
  by destruct m.
Qed.

Lemma for_each_messages_doc ms s :
  clock_ok -> Forall wf_message ms ->
  for_each StatusMessage_from_dict (map message_doc ms) s = (Ok ms, s).
Proof.
  intros Hclock. induction 1 as [| m ms Hm _ IH]; [done |]. simpl.
  erewrite bind_run by (by apply StatusMessage_from_dict_doc).
  by erewrite bind_run by exact IH.
Qed.

Lemma JobStatus_from_dict_doc o s :
  clock_ok -> wf_job o ->
  JobStatus_from_dict (job_doc o) s =
    (Ok (length (job_objs s)),
     Store (clock_reads s) (job_objs s ++ [o]) (pipeline_objs s)).
Proof.
  intros Hclock Ho. destruct s as [n J P]. unfold JobStatus_from_dict, job_doc.
  simpl getitem. rewrite bind_ret.
  erewrite bind_run by apply JobStatus_init_run.
  simpl job_objs; simpl clock_reads; simpl pipeline_objs.
  repeat (rewrite bind_ret; erewrite bind_run by apply update_job_last).
  rewrite bind_ret. simpl iterate. rewrite bind_ret.
  erewrite bind_run by (by apply for_each_messages_doc).
  erewrite bind_run by apply update_job_last.
  by destruct o.
Qed.

Lemma for_each_jobs_doc os s :
  clock_ok -> Forall wf_job os ->
  for_each JobStatus_from_dict (map job_doc os) s =
    (Ok (seq (length (job_objs s)) (length os)),
     Store (clock_reads s) (job_objs s ++ os) (pipeline_objs s)).
Proof.
  intros Hclock H. revert s. induction H as [| o os Ho _ IH]; intros s.
  - simpl. rewrite app_nil_r. by destruct s.
  - simpl. erewrite bind_run by (by apply JobStatus_from_dict_doc).
    erewrite bind_run by apply IH. simpl.
    rewrite length_app, <- app_assoc. simpl.
    by replace (length (job_objs s) + 1) with (S (length (job_objs s))) by lia.
Qed.

Lemma PipelineStatus_from_dict_doc v s :
  clock_ok ->
  Forall wf_message (PipelineStatus.messages v) ->
  Forall wf_job (PipelineStatus.jobs v) ->
  PipelineStatus_from_dict (pipeline_doc v) s =
    (Ok (length (pipeline_objs s)),
     Store (clock_reads s) (job_objs s ++ PipelineStatus.jobs v)
       (pipeline_objs s ++
          [PipelineStatus.mk
             (PipelineStatus.name v) (PipelineStatus.state v)
             (PipelineStatus.start_time v) (PipelineStatus.complete_time v)
             (PipelineStatus.fail_time v) (PipelineStatus.messages v)
             (seq (length (job_objs s)) (length (PipelineStatus.jobs v)))
             None None])).
Proof.
  intros Hclock Hm Hj. destruct s as [n J P].
  unfold PipelineStatus_from_dict, pipeline_doc.
  simpl getitem. rewrite bind_ret.
  erewrite bind_run by apply PipelineStatus_init_run.
  simpl job_objs; simpl clock_reads; simpl pipeline_objs.
  repeat (rewrite bind_ret; erewrite bind_run by apply update_pipeline_last).
  rewrite bind_ret. simpl iterate. rewrite bind_ret.
  erewrite bind_run by (by apply for_each_messages_doc).
  erewrite bind_run by apply update_pipeline_last.
  rewrite bind_ret. simpl iterate. rewrite bind_ret.
  erewrite bind_run by (by apply for_each_jobs_doc).
  simpl job_objs; simpl clock_reads; simpl pipeline_objs.
  erewrite bind_run by apply update_pipeline_last.
  done.
Qed.

(** The jobs that [from_dict] has just created are the jobs of the
    snapshot. *)
Lemma job_at_created n J P os :
  mapM (job_at (Store n (J ++ os) P)) (seq (length J) (length os)) = Some os.
Proof.
  apply mapM_Some. unfold job_at; simpl.
  apply Forall2_same_length_lookup. split; [by rewrite length_seq |].
  intros i j o Hj Ho. apply lookup_seq in Hj as [-> _].
  by rewrite lookup_app_r, Nat.add_comm, Nat.add_sub by lia.
Qed.

Lemma snapshot_defined s o :
  wf_pipeline (length (job_objs s)) o -> is_Some (snapshot s o).
Proof.
  intros (_ & Hj & Ha & _). unfold snapshot.
  assert (is_Some (mapM (job_at s) (PipelineStatus.jobs o))) as [js ->].
  { apply mapM_is_Some. eapply Forall_impl; [exact Hj |].
    intros j Hlt. by apply lookup_lt_is_Some. }
  simpl. destruct (PipelineStatus._active_job o) as [j |]; [| by eexists].
  destruct (lookup_lt_is_Some_2 (job_objs s) j (Ha j eq_refl)) as [oj Hoj].
  unfold job_at. rewrite Hoj. by eexists.
Qed.

Lemma snapshot_wf s o v :
  wf_store s -> wf_pipeline (length (job_objs s)) o -> snapshot s o = Some v ->
  Forall wf_message (PipelineStatus.messages v)
  /\ Forall wf_job (PipelineStatus.jobs v).
Proof.
  intros [HJ _] (Hm & _) Hv. unfold snapshot in Hv.
  destruct (mapM (job_at s) (PipelineStatus.jobs o)) as [js |] eqn:Hjs; [| done].
  simpl in Hv.
  destruct (match PipelineStatus._active_job o with
            | Some j => Some <$> job_at s j | None => Some None end); [| done].
  simpl in Hv. injection Hv as <-. simpl. split; [done |].
  apply mapM_Some in Hjs. apply Forall_forall. intros oj Hin.
  apply list_elem_of_lookup in Hin as [i Hi].
  destruct (Forall2_lookup_r _ _ _ _ _ Hjs Hi) as (j & _ & Hj).
  unfold job_at in Hj. by apply (Forall_lookup_1 _ _ _ _ HJ Hj).
Qed.

(** [publish()] on a pipeline with a registered object, by the outcome
    of the truth test. *)
Lemma PipelineStatus_publish_true s self o f s1 o1 g :
  pipeline_objs s !! self = Some o ->
  PipelineStatus._publish_callback o = Some f ->
  truth_value f s = (Ok true, s1) ->
  pipeline_objs s1 !! self = Some o1 ->
  PipelineStatus._publish_callback o1 = Some g ->
  PipelineStatus_publish self s =
    (match fst (invoke g self s1) with
     | Ok _ => Ok PNone
     | Raise e => Raise e
     end,
     snd (invoke g self s1)).
Proof.
  intros Ho Hcb Ht Ho1 Hcb1. unfold PipelineStatus_publish, bind, read_pipeline.
  rewrite Ho, Hcb, Ht, Ho1, Hcb1. by destruct (invoke g self s1) as [[v | e] s'].
Qed.

Lemma PipelineStatus_publish_false s self o f s1 :
  pipeline_objs s !! self = Some o ->
  PipelineStatus._publish_callback o = Some f ->
  truth_value f s = (Ok false, s1) ->
  PipelineStatus_publish self s = (Ok PNone, s1).
Proof.
  intros Ho Hcb Ht. unfold PipelineStatus_publish, bind, read_pipeline.
  by rewrite Ho, Hcb, Ht.
Qed.


(** ** The claims *)

(** C8.  A freshly constructed [PipelineStatus(name)] is in state
    QUEUED, with empty [messages], empty [jobs], no active job, no
    publish callback and the three milestone timestamps unset; a
    freshly constructed [JobStatus(name)] is in state QUEUED, which is
    not READY, with empty [messages] and the three timestamps unset. *)
Theorem fresh_status_is_queued name s :
  (exists s',
      PipelineStatus_init name s = (Ok (length (pipeline_objs s)), s')
      /\ pipeline_objs s' !! length (pipeline_objs s) =
           Some (PipelineStatus.mk name PipelineState.QUEUED
                   PNone PNone PNone [] [] None None))
  /\ (exists s',
      JobStatus_init name s = (Ok (length (job_objs s)), s')
      /\ job_objs s' !! length (job_objs s) =
           Some (JobStatus.mk name JobState.QUEUED PNone PNone PNone []))
  /\ JobState.QUEUED <> JobState.READY.
Proof.
  split; [| split].
  - eexists. split; [apply PipelineStatus_init_run |]. simpl.
    by apply list_lookup_middle.
  - eexists. split; [apply JobStatus_init_run |]. simpl.
    by apply list_lookup_middle.
  - discriminate.
Qed.

(** C9, amended.  [StatusMessage(message, time)] keeps the supplied
    [time] exactly when it is a true value (any non-empty text); when
    [time] is left out, is [None] or is another false value such as the
    empty text, the time of the message is the text that the clock
    gives at that moment.  No call changes a message once it is in a
    log: the log of every job and of every pipeline only grows at its
    end. *)
Theorem StatusMessage_time message time s :
  StatusMessage_init message time s =
    (if truthy time
     then (Ok (StatusMessage.mk message time), s)
     else (Ok (StatusMessage.mk message (PStr (isotime (clock_reads s)))), tick s))
  /\ StatusMessage_init message PNone s =
       (Ok (StatusMessage.mk message (PStr (isotime (clock_reads s)))), tick s)
  /\ forall c, keeps_messages s (run c s).
Proof.
  split; [| split].
  - destruct (truthy time) eqn:Ht.
    + by apply StatusMessage_init_truthy.
    + by apply StatusMessage_init_falsy.
  - by apply StatusMessage_init_falsy.
  - intros c. eapply keeps_messages_effect, run_effect.
Qed.

(** C3, amended.  On a job in any state and with any message, each of
    [skip], [start], [complete] and [fail] appends one [StatusMessage],
    the message stamped with the text of the clock, to the log of the
    job and returns [None]; the timestamp of the message is what
    [add_message] returns, and [start], [complete] and [fail] store it
    in [start_time], [complete_time] and [fail_time]. *)
Theorem transition_appends_and_returns_None tr s self o message :
  job_objs s !! self = Some o ->
  exists s' o',
    JobStatus_transition tr self message s = (Ok PNone, s')
    /\ job_objs s' !! self = Some o'
    /\ JobStatus.messages o' =
         JobStatus.messages o ++ [StatusMessage.mk message (stamp s)]
    /\ fst (JobStatus_add_message self message s) = Ok (stamp s)
    /\ match tr with
       | Skip => JobStatus.state o' = JobState.SKIPPED
       | Started =>
           JobStatus.state o' = JobState.RUNNING
           /\ JobStatus.start_time o' = stamp s
       | Completed =>
           JobStatus.state o' = JobState.COMPLETE
           /\ JobStatus.complete_time o' = stamp s
       | Failed =>
           JobStatus.state o' = JobState.FAILED
           /\ JobStatus.fail_time o' = stamp s
       end.
Proof.
  intros Ho. eexists _, _.
  split; [by apply JobStatus_transition_run |].
  split; [by eapply put_job_lookup |].
  rewrite (JobStatus_add_message_run s self message o Ho).
  by destruct tr.
Qed.

(** C7.  [start()] and then [fail()] on a job in any state leave it in
    state FAILED, with [start_time] the timestamp of the message that
    [start()] logged and [fail_time] the timestamp of the message that
    [fail()] logged, neither being [None]; and any transition, on a job
    in any state and with any earlier timestamps, overwrites the state
    and its timestamp. *)
Theorem start_then_fail s self o message1 message2 :
  job_objs s !! self = Some o ->
  (exists s1 s2 o2,
      JobStatus_start self message1 s = (Ok PNone, s1)
      /\ JobStatus_fail self message2 s1 = (Ok PNone, s2)
      /\ job_objs s2 !! self = Some o2
      /\ JobStatus.state o2 = JobState.FAILED
      /\ JobStatus.start_time o2 = stamp s
      /\ JobStatus.fail_time o2 = stamp s1
      /\ JobStatus.messages o2 =
           JobStatus.messages o
             ++ [StatusMessage.mk message1 (JobStatus.start_time o2);
                 StatusMessage.mk message2 (JobStatus.fail_time o2)]
      /\ JobStatus.start_time o2 <> PNone
      /\ JobStatus.fail_time o2 <> PNone)
  /\ (forall tr message,
      JobStatus_transition tr self message s =
        (Ok PNone, put_job self (moved tr (logged message s) o) (tick s))).
Proof.
  intros Ho. split.
  - pose proof (JobStatus_transition_run Started s self message1 o Ho) as H1.
    simpl JobStatus_transition in H1.
    set (s1 := put_job self (moved Started (logged message1 s) o) (tick s)) in *.
    assert (job_objs s1 !! self = Some (moved Started (logged message1 s) o)) as Ho1
      by (by eapply put_job_lookup).
    pose proof (JobStatus_transition_run Failed s1 self message2 _ Ho1) as H2.
    simpl JobStatus_transition in H2.
    eexists _, _, _. split; [exact H1 |]. split; [exact H2 |].
    split; [by eapply put_job_lookup |]. simpl.
    rewrite <- app_assoc. done.
  - intros tr message. by apply JobStatus_transition_run.
Qed.

(** C5.  On a pipeline with no publish callback registered,
    [publish()] returns without raising and leaves the store, hence the
    state, timestamps, messages, jobs and active job of the aggregate,
    as they were. *)
Theorem publish_without_callback s self o :
  pipeline_objs s !! self = Some o ->
  PipelineStatus._publish_callback o = None ->
  PipelineStatus_publish self s = (Ok PNone, s).
Proof.
  intros Ho Hcb. unfold PipelineStatus_publish, bind, read_pipeline.
  by rewrite Ho, Hcb.
Qed.


(** C4.  Reconstruction from a keyed representation in which a key of
    the projection is missing raises: for a [StatusMessage] and for a
    [JobStatus] the exception is the [KeyError] of a missing key; for a
    [PipelineStatus] it is an exception too, the [KeyError] of a
    missing key unless [jobs] alone is missing, in which case an
    exception of the reconstruction of [messages] may come first.  No
    instance is returned and no default value is filled in. *)
Theorem from_dict_missing_key entries k s :
  dict_lookup k entries = None ->
  (In k StatusMessage_attributes ->
     exists k', dict_lookup k' entries = None
                /\ fst (StatusMessage_from_dict (PDict entries) s) = Raise (KeyError k'))
  /\ (In k JobStatus_attributes ->
     exists k', dict_lookup k' entries = None
                /\ fst (JobStatus_from_dict (PDict entries) s) = Raise (KeyError k'))
  /\ (In k PipelineStatus_attributes ->
     exists e, fst (PipelineStatus_from_dict (PDict entries) s) = Raise e
               /\ (k <> "jobs" ->
                   exists k', dict_lookup k' entries = None /\ e = KeyError k')).
Proof.
  intros Hk.
  assert (forall k' (B : Type) (c : pyval -> Py B) t,
             dict_lookup k' entries = None ->
             fst (bind (getitem (PDict entries) k') c t) = Raise (KeyError k'))
    as Hmiss by (intros k' B c t Hk'; unfold bind; simpl; by rewrite Hk').
  assert (forall k' (B : Type) (c : pyval -> Py B) t v,
             dict_lookup k' entries = Some v ->
             bind (getitem (PDict entries) k') c t = c v t)
    as Hthere by (intros k' B c t v Hk'; unfold bind; simpl; by rewrite Hk').
  split; [| split]; intros Hin.
  - unfold StatusMessage_from_dict.
    destruct (dict_lookup "message" entries) as [v1 |] eqn:E1;
      [rewrite (Hthere _ _ _ _ _ E1) | by exists "message"; auto].
    destruct (dict_lookup "time" entries) as [v2 |] eqn:E2;
      [rewrite (Hthere _ _ _ _ _ E2) | by exists "time"; auto].
    simpl in Hin. destruct Hin as [<- | [<- | []]]; congruence.
  - unfold JobStatus_from_dict.
    destruct (dict_lookup "name" entries) as [v1 |] eqn:E1;
      [rewrite (Hthere _ _ _ _ _ E1) | by exists "name"; auto].
    erewrite bind_run by apply JobStatus_init_run.
    destruct (dict_lookup "state" entries) as [v2 |] eqn:E2;
      [rewrite (Hthere _ _ _ _ _ E2) | by exists "state"; auto].
    erewrite bind_run by apply update_job_last.
    destruct (dict_lookup "start_time" entries) as [v3 |] eqn:E3;
      [rewrite (Hthere _ _ _ _ _ E3) | by exists "start_time"; auto].
    erewrite bind_run by apply update_job_last.
    destruct (dict_lookup "complete_time" entries) as [v4 |] eqn:E4;
      [rewrite (Hthere _ _ _ _ _ E4) | by exists "complete_time"; auto].
    erewrite bind_run by apply update_job_last.
    destruct (dict_lookup "fail_time" entries) as [v5 |] eqn:E5;
      [rewrite (Hthere _ _ _ _ _ E5) | by exists "fail_time"; auto].
    erewrite bind_run by apply update_job_last.
    destruct (dict_lookup "messages" entries) as [v6 |] eqn:E6;
      [| by exists "messages"; auto].
    simpl in Hin.
    destruct Hin as [<- | [<- | [<- | [<- | [<- | [<- | []]]]]]]; congruence.
  - unfold PipelineStatus_from_dict.
    destruct (dict_lookup "name" entries) as [v1 |] eqn:E1;
      [rewrite (Hthere _ _ _ _ _ E1) | by eexists; eauto].
    erewrite bind_run by apply PipelineStatus_init_run.
    destruct (dict_lookup "state" entries) as [v2 |] eqn:E2;
      [rewrite (Hthere _ _ _ _ _ E2) | by eexists; eauto].
    erewrite bind_run by apply update_pipeline_last.
    destruct (dict_lookup "start_time" entries) as [v3 |] eqn:E3;
      [rewrite (Hthere _ _ _ _ _ E3) | by eexists; eauto].
    erewrite bind_run by apply update_pipeline_last.
    destruct (dict_lookup "complete_time" entries) as [v4 |] eqn:E4;
      [rewrite (Hthere _ _ _ _ _ E4) | by eexists; eauto].
    erewrite bind_run by apply update_pipeline_last.
    destruct (dict_lookup "fail_time" entries) as [v5 |] eqn:E5;
      [rewrite (Hthere _ _ _ _ _ E5) | by eexists; eauto].
    erewrite bind_run by apply update_pipeline_last.
    destruct (dict_lookup "messages" entries) as [v6 |] eqn:E6;
      [rewrite (Hthere _ _ _ _ _ E6) | by eexists; eauto].
    assert (k = "jobs") as -> by
      (simpl in Hin;
       destruct Hin as [<- | [<- | [<- | [<- | [<- | [<- | [<- | []]]]]]]]; congruence).
    destruct (iterate_cases v6) as [[items ->] | [e ->]];
      [rewrite bind_ret | rewrite bind_raise; by eexists].
    match goal with |- context [bind (for_each ?f ?l) _ ?t] =>
      destruct (for_each_messages_shape l t) as [Hext _]; unfold after in Hext;
      destruct (for_each f l t) as [[ms | e] [n' J' P']] eqn:Hms
    end; destruct Hext as (_ & HJ & HP); simpl in HJ, HP;
      rewrite app_nil_r in HJ, HP; subst J' P'.
    + erewrite bind_run by exact Hms.
      erewrite bind_run by apply update_pipeline_last.
      rewrite (Hmiss _ _ _ _ Hk). by eexists.
    + erewrite bind_run_raise by exact Hms. by eexists.
Qed.

(** C10.  Whatever the keyed representation [d], and whatever its
    [jobs] list holds, the pipeline that [from_dict(d)] returns has no
    active job and no publish callback, so that its [publish()] does
    nothing. *)
Theorem from_dict_resets_private d s p s' :
  PipelineStatus_from_dict d s = (Ok p, s') ->
  exists o,
    pipeline_objs s' !! p = Some o
    /\ PipelineStatus._active_job o = None
    /\ PipelineStatus._publish_callback o = None
    /\ PipelineStatus_active_job p s' = (Ok None, s')
    /\ PipelineStatus_publish p s' = (Ok PNone, s').
Proof.
  intros Hrun. destruct (from_dict_private d s p s' Hrun) as (o & Ho & Ha & Hcb).
  exists o. split; [done |]. split; [done |]. split; [done |]. split.
  - unfold PipelineStatus_active_job, bind, read_pipeline. by rewrite Ho, Ha.
  - unfold PipelineStatus_publish, bind, read_pipeline. by rewrite Ho, Hcb.
Qed.

(** C2, amended.  In every pipeline that [PipelineStatus(name)] has
    built, after every sequence of calls, there is no active job
    exactly as long as [jobs] is empty, and otherwise the active job is
    the last element of [jobs].  In every pipeline, reconstructed ones
    included, an active job that is set is the last element of [jobs],
    and [jobs] lists the jobs in the order of their creation, so that
    its last element is the most recently created one; a reconstructed
    pipeline has no active job, whatever its [jobs] holds, until
    [add_job] is called.  Immediately after [add_job(n)] the active job
    is the object that the call has just created and put at the end of
    [jobs], with name [n] and state QUEUED, whatever the active job was
    before. *)
Theorem active_job_tracking :
  (forall s name cs,
      exists o,
        pipeline_objs (runs cs (after (PipelineStatus_init name) s))
          !! length (pipeline_objs s) = Some o
        /\ tracks_jobs o)
  /\ (forall s p o,
      reachable s -> pipeline_objs s !! p = Some o ->
      tracks_last o /\ StronglySorted lt (PipelineStatus.jobs o))
  /\ (forall d s p s',
      PipelineStatus_from_dict d s = (Ok p, s') ->
      exists o, pipeline_objs s' !! p = Some o
                /\ PipelineStatus._active_job o = None)
  /\ (forall c s p o,
      adds c <> Some p -> pipeline_objs s !! p = Some o ->
      exists o', pipeline_objs (run c s) !! p = Some o'
                 /\ PipelineStatus._active_job o' = PipelineStatus._active_job o
                 /\ PipelineStatus.jobs o' = PipelineStatus.jobs o)
  /\ (forall s self o name,
      pipeline_objs s !! self = Some o ->
      exists s' o',
        PipelineStatus_add_job self name s = (Ok (length (job_objs s)), s')
        /\ pipeline_objs s' !! self = Some o'
        /\ PipelineStatus._active_job o' = Some (length (job_objs s))
        /\ PipelineStatus.jobs o' = PipelineStatus.jobs o ++ [length (job_objs s)]
        /\ last (PipelineStatus.jobs o') = PipelineStatus._active_job o'
        /\ job_objs s !! length (job_objs s) = None
        /\ job_objs s' !! length (job_objs s) =
             Some (JobStatus.mk name JobState.QUEUED PNone PNone PNone [])).
Proof.
  split; [| split; [| split; [| split]]].
  - intros s name cs. eapply runs_tracks_jobs.
    + unfold after. rewrite PipelineStatus_init_run. simpl.
      by apply list_lookup_middle.
    + done.
  - intros s p o Hs Ho. split.
    + by apply (Forall_lookup_1 _ _ _ _ (reachable_tracks_last s Hs) Ho).
    + destruct (reachable_wf s Hs) as [_ HP].
      by destruct (Forall_lookup_1 _ _ _ _ HP Ho) as (_ & _ & _ & Hsorted).
  - intros d s p s' Hrun.
    destruct (from_dict_private d s p s' Hrun) as (o & Ho & Ha & _). by exists o.
  - intros c s p o Hc Ho. by eapply keeps_active_effect; [apply run_effect | |].
  - intros s self o name Ho. eexists _, _.
    split; [by apply PipelineStatus_add_job_run |]. simpl.
    split; [apply list_lookup_insert_eq; by eapply lookup_lt_Some |]. simpl.
    split; [done |]. split; [done |]. split; [apply last_snoc |].
    split; [by apply lookup_ge_None_2 | by apply list_lookup_middle].
Qed.

(** C1, amended.  With a clock that gives ISO 8601 text, for every
    reachable instance, timestamps unset and empty logs included:
    reconstructing a [StatusMessage] or a [JobStatus] from its
    projection yields an instance equal to it; reconstructing a
    [PipelineStatus] from its projection yields an instance equal to it
    on the seven projected attributes, the jobs being compared as
    objects, while the active job and the publish callback of the
    reconstruction are none; and projecting the reconstruction gives
    the projection one started from. *)
Theorem round_trip :
  clock_ok ->
  (forall m t,
      reachable_message m ->
      exists d,
        StatusMessage_serialize m = Some d
        /\ StatusMessage_from_dict d t = (Ok m, t))
  /\ (forall s j o t,
      reachable s -> job_objs s !! j = Some o ->
      exists d j' t',
        JobStatus_serialize o = Some d
        /\ JobStatus_from_dict d t = (Ok j', t')
        /\ job_objs t' !! j' = Some o)
  /\ (forall s p o t,
      reachable s -> pipeline_objs s !! p = Some o ->
      exists v d p' t',
        pipeline_at s p = Some v
        /\ PipelineStatus_serialize s p = Some d
        /\ PipelineStatus_from_dict d t = (Ok p', t')
        /\ pipeline_at t' p' = Some (public v)
        /\ PipelineStatus_serialize t' p' = Some d).
Proof.
  intros Hclock. split; [| split].
  - intros m t (message & time & s & Hm). exists (message_doc m).
    split; [done |]. apply StatusMessage_from_dict_doc; [done |].
    destruct (StatusMessage_init_shape message time s) as (m' & Hrun & Hwf & _).
    rewrite Hrun in Hm. simpl in Hm. by injection Hm as <-.
  - intros s j o t Hs Ho. destruct (reachable_wf s Hs) as [HJ _].
    exists (job_doc o). eexists _, _.
    split; [apply JobStatus_serialize_doc |].
    split; [apply JobStatus_from_dict_doc;
            [done | by apply (Forall_lookup_1 _ _ _ _ HJ Ho)] |].
    simpl. by apply list_lookup_middle.
  - intros s p o t Hs Ho. pose proof (reachable_wf s Hs) as Hwf.
    pose proof (Forall_lookup_1 _ _ _ _ (proj2 Hwf) Ho) as Hwfo.
    destruct (snapshot_defined s o Hwfo) as [v Hv].
    destruct (snapshot_wf s o v Hwf Hwfo Hv) as [Hm Hj].
    assert (pipeline_at s p = Some v) as Hat
      by (unfold pipeline_at; by rewrite Ho).
    exists v, (pipeline_doc v). eexists _, _.
    split; [done |].
    split; [unfold PipelineStatus_serialize; rewrite Hat;
            apply PipelineStatus_project_doc |].
    split; [by apply PipelineStatus_from_dict_doc |].
    assert (pipeline_at
              (Store (clock_reads t) (job_objs t ++ PipelineStatus.jobs v)
                 (pipeline_objs t ++
                    [PipelineStatus.mk
                       (PipelineStatus.name v) (PipelineStatus.state v)
                       (PipelineStatus.start_time v) (PipelineStatus.complete_time v)
                       (PipelineStatus.fail_time v) (PipelineStatus.messages v)
                       (seq (length (job_objs t)) (length (PipelineStatus.jobs v)))
                       None None]))
              (length (pipeline_objs t)) = Some (public v)) as Hat'.
    { unfold pipeline_at. simpl. rewrite list_lookup_middle by done. simpl.
      unfold snapshot. simpl. by rewrite job_at_created. }
    split; [exact Hat' |].
    unfold PipelineStatus_serialize. rewrite Hat'. simpl.
    by rewrite PipelineStatus_project_doc.
Qed.

(** ** Further properties of the code *)

(** X1.  Messages are logged in the order of the calls: [add_message]
    called on a job, or on a pipeline, with each of [messages] in turn
    appends them to the log in that order, each stamped with the next
    reading of the clock, returns these timestamps, and reads the clock
    once per message. *)
Theorem add_message_keeps_order messages s :
  (forall self o,
      job_objs s !! self = Some o ->
      exists s' o',
        for_each (JobStatus_add_message self) messages s
        = (Ok (map StatusMessage.time (stamped (clock_reads s) messages)), s')
        /\ job_objs s' !! self = Some o'
        /\ JobStatus.messages o'
           = JobStatus.messages o ++ stamped (clock_reads s) messages
        /\ clock_reads s' = clock_reads s + length messages)
  /\ (forall self o,
      pipeline_objs s !! self = Some o ->
      exists s' o',
        for_each (PipelineStatus_add_message self) messages s
        = (Ok (map StatusMessage.time (stamped (clock_reads s) messages)), s')
        /\ pipeline_objs s' !! self = Some o'
        /\ PipelineStatus.messages o'
           = PipelineStatus.messages o ++ stamped (clock_reads s) messages
        /\ clock_reads s' = clock_reads s + length messages).
Proof.
  split.
  - intros self. revert s.
    induction messages as [| m rest IH]; intros s o Ho.
    + exists s, o. simpl. rewrite app_nil_r. repeat split; [done | lia].
    + simpl.
      erewrite bind_run by (by apply JobStatus_add_message_run).
      match goal with |- context [bind _ _ ?s1] =>
        destruct (IH s1 _ (put_job_lookup (tick s) self o _ Ho))
          as (s' & o' & Hrun & Ho' & Hlog & Hclock)
      end.
      erewrite bind_run by exact Hrun. simpl in *.
      exists s', o'. split; [done |]. split; [done |].
      split; [by rewrite Hlog, <- app_assoc | lia].
  - intros self. revert s.
    induction messages as [| m rest IH]; intros s o Ho.
    + exists s, o. simpl. rewrite app_nil_r. repeat split; [done | lia].
    + simpl.
      erewrite bind_run by (by apply PipelineStatus_add_message_run).
      match goal with |- context [bind _ _ ?s1] =>
        destruct (IH s1 _ (put_pipeline_lookup (tick s) self o _ Ho))
          as (s' & o' & Hrun & Ho' & Hlog & Hclock)
      end.
      erewrite bind_run by exact Hrun. simpl in *.
      exists s', o'. split; [done |]. split; [done |].
      split; [by rewrite Hlog, <- app_assoc | lia].
Qed.

(** X2.  Jobs are kept in the order of their creation: [add_job] called
    on a pipeline with each of [names] in turn creates one QUEUED job
    per name, in that order, returns their references, appends these
    to [jobs] in the same order, leaves the last of them as the active
    job (the active job is unchanged when [names] is empty) and never
    reads the clock. *)
Theorem add_job_keeps_order names s self o :
  pipeline_objs s !! self = Some o ->
  exists s' o',
    for_each (PipelineStatus_add_job self) names s
    = (Ok (seq (length (job_objs s)) (length names)), s')
    /\ job_objs s' = job_objs s ++ map fresh_job names
    /\ pipeline_objs s' !! self = Some o'
    /\ PipelineStatus.jobs o'
       = PipelineStatus.jobs o ++ seq (length (job_objs s)) (length names)
    /\ PipelineStatus._active_job o'
       = match last (seq (length (job_objs s)) (length names)) with
         | Some j => Some j
         | None => PipelineStatus._active_job o
         end
    /\ clock_reads s' = clock_reads s.
Proof.
  revert s o. induction names as [| name rest IH]; intros s o Ho.
  - exists s, o. simpl. by rewrite !app_nil_r.
  - simpl.
    erewrite bind_run by (by apply PipelineStatus_add_job_run).
    match goal with |- context [bind _ _ ?s1] =>
      assert (exists o1, pipeline_objs s1 !! self = Some o1
                /\ PipelineStatus.jobs o1
                   = PipelineStatus.jobs o ++ [length (job_objs s)]
                /\ PipelineStatus._active_job o1 = Some (length (job_objs s)))
        as (o1 & Ho1 & Hjobs1 & Hactive1)
        by (eexists; split;
            [simpl; apply list_lookup_insert_eq; by eapply lookup_lt_Some | done]);
      destruct (IH s1 o1 Ho1) as (s' & o' & Hrun & HJ & Ho' & Hjobs & Hactive & Hclock)
    end.
    erewrite bind_run by exact Hrun. simpl in *.
    rewrite length_app in *. simpl in *.
    replace (length (job_objs s) + 1) with (S (length (job_objs s))) in * by lia.
    exists s', o'. split; [done |].
    split; [by rewrite HJ, <- app_assoc |]. split; [done |].
    split; [by rewrite Hjobs, Hjobs1, <- app_assoc |].
    split; [| done]. rewrite Hactive, Hactive1.
    destruct rest as [| name' rest']; [done |].
    simpl length. simpl seq. rewrite last_cons_cons.
    destruct (last _) eqn:E; [done |]. by apply last_None in E.
Qed.

Lemma PipelineStatus_transition_run tr s self message o :
  pipeline_objs s !! self = Some o ->
  PipelineStatus_transition tr self message s =
    (Ok PNone,
     put_pipeline self
       (match tr with
        | PStarted =>
            PipelineStatus.set_state PipelineState.RUNNING
              (PipelineStatus.set_start_time (stamp s)
                 (PipelineStatus.set_messages
                    (PipelineStatus.messages o ++ [logged message s]) o))
        | PCompleted =>
            PipelineStatus.set_state PipelineState.COMPLETE
              (PipelineStatus.set_complete_time (stamp s)
                 (PipelineStatus.set_messages
                    (PipelineStatus.messages o ++ [logged message s]) o))
        | PFailed =>
            PipelineStatus.set_state PipelineState.FAILED
              (PipelineStatus.set_fail_time (stamp s)
                 (PipelineStatus.set_messages
                    (PipelineStatus.messages o ++ [logged message s]) o))
        end)
       (tick s)).
Proof.
  intros Ho. destruct tr; simpl.
  - by apply PipelineStatus_start_run.
  - by apply PipelineStatus_complete_run.
  - by apply PipelineStatus_fail_run.
Qed.

(** X3.  On a pipeline in any state, each of [start], [complete] and
    [fail] logs one message stamped with the text of the clock, sets
    the state and its own timestamp to that text, and returns [None];
    it leaves the two other timestamps, the name, [jobs], the active
    job and the publish callback of the pipeline as they were, and
    changes no job and no other pipeline: completing or failing a
    pipeline never completes, fails or retires its jobs. *)
Theorem pipeline_transition_logs tr s self o message :
  pipeline_objs s !! self = Some o ->
  exists s' o',
    PipelineStatus_transition tr self message s = (Ok PNone, s')
    /\ pipeline_objs s' !! self = Some o'
    /\ PipelineStatus.messages o'
       = PipelineStatus.messages o ++ [StatusMessage.mk message (stamp s)]
    /\ match tr with
       | PStarted =>
           PipelineStatus.state o' = PipelineState.RUNNING
           /\ PipelineStatus.start_time o' = stamp s
           /\ PipelineStatus.complete_time o' = PipelineStatus.complete_time o
           /\ PipelineStatus.fail_time o' = PipelineStatus.fail_time o
       | PCompleted =>
           PipelineStatus.state o' = PipelineState.COMPLETE
           /\ PipelineStatus.start_time o' = PipelineStatus.start_time o
           /\ PipelineStatus.complete_time o' = stamp s
           /\ PipelineStatus.fail_time o' = PipelineStatus.fail_time o
       | PFailed =>
           PipelineStatus.state o' = PipelineState.FAILED
           /\ PipelineStatus.start_time o' = PipelineStatus.start_time o
           /\ PipelineStatus.complete_time o' = PipelineStatus.complete_time o
           /\ PipelineStatus.fail_time o' = stamp s
       end
    /\ PipelineStatus.name o' = PipelineStatus.name o
    /\ PipelineStatus.jobs o' = PipelineStatus.jobs o
    /\ PipelineStatus._active_job o' = PipelineStatus._active_job o
    /\ PipelineStatus._publish_callback o' = PipelineStatus._publish_callback o
    /\ job_objs s' = job_objs s
    /\ (forall p, p <> self -> pipeline_objs s' !! p = pipeline_objs s !! p).
Proof.
  intros Ho. eexists _, _.
  split; [by apply PipelineStatus_transition_run |].
  split; [by eapply put_pipeline_lookup |].
  split; [by destruct tr |]. split; [by destruct tr |].
  split; [by destruct tr |]. split; [by destruct tr |].
  split; [by destruct tr |]. split; [by destruct tr |].
  split; [done |].
  intros p Hp. simpl. by apply list_lookup_insert_ne.
Qed.

(** X4.  A transition of a job changes nothing but the state, its own
    timestamp and the log of that job: the name and the other
    timestamps stay (so that [complete()] and then [fail()] leave both
    [complete_time] and [fail_time] set), [skip] sets no timestamp at
    all, no other job changes, and no pipeline changes: the failure of
    a job is not passed on to the pipeline that holds it. *)
Theorem job_transition_frame tr s self o message :
  job_objs s !! self = Some o ->
  exists o',
    job_objs (after (JobStatus_transition tr self message) s) !! self = Some o'
    /\ JobStatus.name o' = JobStatus.name o
    /\ (tr <> Started -> JobStatus.start_time o' = JobStatus.start_time o)
    /\ (tr <> Completed -> JobStatus.complete_time o' = JobStatus.complete_time o)
    /\ (tr <> Failed -> JobStatus.fail_time o' = JobStatus.fail_time o)
    /\ pipeline_objs (after (JobStatus_transition tr self message) s)
       = pipeline_objs s
    /\ (forall j, j <> self ->
          job_objs (after (JobStatus_transition tr self message) s) !! j
          = job_objs s !! j).
Proof.
  intros Ho. unfold after. rewrite (JobStatus_transition_run tr s self message o Ho).
  eexists. split; [by eapply put_job_lookup |].
  split; [by destruct tr |]. split; [by destruct tr |].
  split; [by destruct tr |]. split; [by destruct tr |].
  split; [done |].
  intros j Hj. simpl. by apply list_lookup_insert_ne.
Qed.

(** X5.  [add_job] changes no existing job: the job that was active
    before is left in the state it was in, not completed, failed or
    retired.  It logs no message and does not read the clock, it leaves
    the name, the state, the timestamps, the messages and the publish
    callback of the pipeline as they were, and it changes no other
    pipeline. *)
Theorem add_job_frame s self o name :
  pipeline_objs s !! self = Some o ->
  (forall j oj,
      job_objs s !! j = Some oj ->
      job_objs (after (PipelineStatus_add_job self name) s) !! j = Some oj)
  /\ clock_reads (after (PipelineStatus_add_job self name) s) = clock_reads s
  /\ (exists o',
      pipeline_objs (after (PipelineStatus_add_job self name) s) !! self = Some o'
      /\ PipelineStatus.name o' = PipelineStatus.name o
      /\ PipelineStatus.state o' = PipelineStatus.state o
      /\ PipelineStatus.start_time o' = PipelineStatus.start_time o
      /\ PipelineStatus.complete_time o' = PipelineStatus.complete_time o
      /\ PipelineStatus.fail_time o' = PipelineStatus.fail_time o
      /\ PipelineStatus.messages o' = PipelineStatus.messages o
      /\ PipelineStatus._publish_callback o' = PipelineStatus._publish_callback o)
  /\ (forall p, p <> self ->
        pipeline_objs (after (PipelineStatus_add_job self name) s) !! p
        = pipeline_objs s !! p).
Proof.
  intros Ho. unfold after. rewrite (PipelineStatus_add_job_run s self name o Ho).
  simpl. split; [| split; [done | split]].
  - intros j oj Hj. by apply lookup_app_l_Some.
  - eexists. split; [apply list_lookup_insert_eq; by eapply lookup_lt_Some | done].
  - intros p Hp. by apply list_lookup_insert_ne.
Qed.

(** X6.  The publish callback is one slot: [set_publish_callback]
    returns [None] and changes nothing but the slot; registering twice
    is registering the second callback alone, also for the
    [publish()] that follows, which neither tests nor calls the first.
    [publish()] after the registration of [None] does nothing; after
    the registration of an object [f] it tests the truth value of [f]:
    when [f] is false it is not called, and when [f] is true, and
    still registered after the test, [publish()] is one call of [f]. *)
Theorem set_publish_callback_replaces s self o cb1 cb2 :
  pipeline_objs s !! self = Some o ->
  PipelineStatus_set_publish_callback self cb2 s
  = (Ok PNone, put_pipeline self (PipelineStatus.set__publish_callback cb2 o) s)
  /\ (PipelineStatus_set_publish_callback self cb1 ;;
      PipelineStatus_set_publish_callback self cb2) s
     = PipelineStatus_set_publish_callback self cb2 s
  /\ (PipelineStatus_set_publish_callback self cb1 ;;
      PipelineStatus_set_publish_callback self cb2 ;;
      PipelineStatus_publish self) s
     = (PipelineStatus_set_publish_callback self cb2 ;;
        PipelineStatus_publish self) s
  /\ (cb2 = None ->
      (PipelineStatus_set_publish_callback self cb2 ;;
       PipelineStatus_publish self) s
      = (Ok PNone,
         put_pipeline self (PipelineStatus.set__publish_callback None o) s))
  /\ (forall f s1,
        cb2 = Some f ->
        truth_value f
          (put_pipeline self (PipelineStatus.set__publish_callback (Some f) o) s)
        = (Ok false, s1) ->
        (PipelineStatus_set_publish_callback self cb2 ;;
         PipelineStatus_publish self) s
        = (Ok PNone, s1))
  /\ (forall f s1 o1,
        cb2 = Some f ->
        truth_value f
          (put_pipeline self (PipelineStatus.set__publish_callback (Some f) o) s)
        = (Ok true, s1) ->
        pipeline_objs s1 !! self = Some o1 ->
        PipelineStatus._publish_callback o1 = Some f ->
        (PipelineStatus_set_publish_callback self cb2 ;;
         PipelineStatus_publish self) s
        = (match fst (invoke f self s1) with
           | Ok _ => Ok PNone
           | Raise e => Raise e
           end,
           snd (invoke f self s1))).
Proof.
  intros Ho.
  assert (forall cb,
             pipeline_objs
               (put_pipeline self (PipelineStatus.set__publish_callback cb o) s)
             !! self
             = Some (PipelineStatus.set__publish_callback cb o)) as Hput.
  { intros cb. by eapply put_pipeline_lookup. }
  assert (forall cb,
             (PipelineStatus_set_publish_callback self cb ;;
              PipelineStatus_publish self) s
             = PipelineStatus_publish self
                 (put_pipeline self (PipelineStatus.set__publish_callback cb o) s))
    as Hthen.
  { intros cb.
    by erewrite bind_run by (by apply PipelineStatus_set_publish_callback_run). }
  split; [by apply PipelineStatus_set_publish_callback_run |].
  split; [| split; [| split; [| split]]].
  - erewrite bind_run by (by apply PipelineStatus_set_publish_callback_run).
    erewrite !PipelineStatus_set_publish_callback_run; [| done | by apply Hput].
    by rewrite put_pipeline_put_pipeline.
  - erewrite bind_run by (by apply PipelineStatus_set_publish_callback_run).
    erewrite bind_run
      by (by apply (PipelineStatus_set_publish_callback_run _ self cb2 _ (Hput cb1))).
    rewrite put_pipeline_put_pipeline. simpl. by rewrite Hthen.
  - intros ->. rewrite Hthen.
    unfold PipelineStatus_publish, bind, read_pipeline. by rewrite Hput.
  - intros f s1 -> Ht. rewrite Hthen.
    by eapply PipelineStatus_publish_false; [apply Hput | |].
  - intros f s1 o1 -> Ht Ho1 Hcb1. rewrite Hthen.
    by eapply PipelineStatus_publish_true; [apply Hput | | | |].
Qed.

Lemma getitem_ext e1 e2 k :
  dict_lookup k e1 = dict_lookup k e2 -> getitem (PDict e1) k = getitem (PDict e2) k.
Proof. intros H. unfold getitem. by rewrite H. Qed.

(** X7.  Reconstruction reads the keys of the projection and nothing
    else: two dictionaries that hold the same values under these keys
    are reconstructed alike, whatever other keys they hold and in
    whatever order.  Unknown keys are ignored without an error. *)
Theorem from_dict_reads_only_its_keys e1 e2 s :
  ((forall k, In k StatusMessage_attributes -> dict_lookup k e1 = dict_lookup k e2) ->
   StatusMessage_from_dict (PDict e1) s = StatusMessage_from_dict (PDict e2) s)
  /\ ((forall k, In k JobStatus_attributes -> dict_lookup k e1 = dict_lookup k e2) ->
      JobStatus_from_dict (PDict e1) s = JobStatus_from_dict (PDict e2) s)
  /\ ((forall k, In k PipelineStatus_attributes -> dict_lookup k e1 = dict_lookup k e2) ->
      PipelineStatus_from_dict (PDict e1) s = PipelineStatus_from_dict (PDict e2) s).
Proof.
  split; [| split]; intros H.
  - unfold StatusMessage_from_dict.
    rewrite (getitem_ext e1 e2 "message"), (getitem_ext e1 e2 "time");
      try (apply H; simpl; tauto).
    done.
  - unfold JobStatus_from_dict.
    rewrite (getitem_ext e1 e2 "name"), (getitem_ext e1 e2 "state"),
      (getitem_ext e1 e2 "start_time"), (getitem_ext e1 e2 "complete_time"),
      (getitem_ext e1 e2 "fail_time"), (getitem_ext e1 e2 "messages");
      try (apply H; simpl; tauto).
    done.
  - unfold PipelineStatus_from_dict.
    rewrite (getitem_ext e1 e2 "name"), (getitem_ext e1 e2 "state"),
      (getitem_ext e1 e2 "start_time"), (getitem_ext e1 e2 "complete_time"),
      (getitem_ext e1 e2 "fail_time"), (getitem_ext e1 e2 "messages"),
      (getitem_ext e1 e2 "jobs");
      try (apply H; simpl; tauto).
    done.
Qed.

(** X8.  Reconstruction from a value that is not a dictionary ([None],
    a number, a text, a list) raises [TypeError] at once: no object is
    created and the clock is not read. *)
Theorem from_dict_of_non_dict d s :
  (forall entries, d <> PDict entries) ->
  StatusMessage_from_dict d s = (Raise TypeError, s)
  /\ JobStatus_from_dict d s = (Raise TypeError, s)
  /\ PipelineStatus_from_dict d s = (Raise TypeError, s).
Proof.
  intros Hd.
  assert (forall k, getitem d k = raise TypeError) as Hget
    by (intros k; destruct d; try done; by destruct (Hd entries)).
  unfold StatusMessage_from_dict, JobStatus_from_dict, PipelineStatus_from_dict.
  by rewrite !Hget.
Qed.

(** X9.  Whether it returns or raises, and whatever it is given, a
    reconstruction changes no object that exists: the job objects and
    the pipeline objects of the store are still there, unchanged,
    before the objects that the call has created, and the clock only
    goes forward.  A reconstruction that fails half way cannot corrupt
    a status that is being tracked. *)
Theorem from_dict_keeps_existing_objects d s :
  (job_objs (after (StatusMessage_from_dict d) s) = job_objs s
   /\ pipeline_objs (after (StatusMessage_from_dict d) s) = pipeline_objs s
   /\ clock_reads s <= clock_reads (after (StatusMessage_from_dict d) s))
  /\ (job_objs s `prefix_of` job_objs (after (JobStatus_from_dict d) s)
      /\ pipeline_objs (after (JobStatus_from_dict d) s) = pipeline_objs s
      /\ clock_reads s <= clock_reads (after (JobStatus_from_dict d) s))
  /\ (job_objs s `prefix_of` job_objs (after (PipelineStatus_from_dict d) s)
      /\ pipeline_objs s `prefix_of` pipeline_objs (after (PipelineStatus_from_dict d) s)
      /\ clock_reads s <= clock_reads (after (PipelineStatus_from_dict d) s)).
Proof.
  split; [| split].
  - destruct (StatusMessage_from_dict_shape d s) as [(Hn & HJ & HP) _].
    by rewrite HJ, HP, !app_nil_r.
  - destruct (JobStatus_from_dict_shape d s) as (js & (Hn & HJ & HP) & _).
    rewrite HJ, HP, app_nil_r. split; [by apply prefix_app_r | done].
  - destruct (PipelineStatus_from_dict_shape d s) as (js & ps & (Hn & HJ & HP) & _).
    rewrite HJ, HP. split; [by apply prefix_app_r |].
    split; [by apply prefix_app_r | done].
Qed.

(** X10.  [JobStatus.from_dict] does not check that [messages] is a
    list.  With the five other keys present: [None], a boolean or a
    number under [messages] raises [TypeError], and so does a non-empty
    text or a non-empty dictionary (their elements are texts, not
    dictionaries); an empty text and an empty dictionary are taken for
    an empty list, and the job is reconstructed with no message. *)
Theorem from_dict_messages_not_a_list entries s name state st ct ft v :
  dict_lookup "name" entries = Some name ->
  dict_lookup "state" entries = Some state ->
  dict_lookup "start_time" entries = Some st ->
  dict_lookup "complete_time" entries = Some ct ->
  dict_lookup "fail_time" entries = Some ft ->
  dict_lookup "messages" entries = Some v ->
  match v with
  | PNone | PBool _ | PInt _ | PStr (String _ _) | PDict (_ :: _) =>
      fst (JobStatus_from_dict (PDict entries) s) = Raise TypeError
  | PStr EmptyString | PDict [] | PList [] =>
      JobStatus_from_dict (PDict entries) s
      = (Ok (length (job_objs s)),
         Store (clock_reads s)
           (job_objs s ++ [JobStatus.mk name state st ct ft []])
           (pipeline_objs s))
  | PList (_ :: _) => True
  end.
Proof.
  intros H1 H2 H3 H4 H5 H6. destruct s as [n J P].
  unfold JobStatus_from_dict, getitem. rewrite H1, H2, H3, H4, H5, H6.
  rewrite bind_ret. erewrite bind_run by apply JobStatus_init_run.
  simpl job_objs; simpl clock_reads; simpl pipeline_objs.
  repeat (rewrite bind_ret; erewrite bind_run by apply update_job_last).
  rewrite bind_ret.
  destruct v as [| b | z | [| c r] | [| x l] | [| [k x] l]]; try done.
  - simpl iterate. rewrite bind_ret. simpl for_each. rewrite bind_ret.
    by erewrite bind_run by apply update_job_last.
  - simpl iterate. rewrite bind_ret. simpl for_each. rewrite bind_ret.
    by erewrite bind_run by apply update_job_last.
  - simpl iterate. rewrite bind_ret. simpl for_each. rewrite bind_ret.
    by erewrite bind_run by apply update_job_last.
Qed.

(** *** What a successful reconstruction has read *)

Lemma bind_inv {A B} (c : Py A) (k : A -> Py B) s r s' :
  bind c k s = (Ok r, s') -> exists a s1, c s = (Ok a, s1) /\ k a s1 = (Ok r, s').
Proof.
  unfold bind. destruct (c s) as [[a | e] s1]; [| done]. intros H. by exists a, s1.
Qed.

Lemma bind_getitem_inv {B} d k (c : pyval -> Py B) s r s' :
  bind (getitem d k) c s = (Ok r, s') ->
  exists entries v,
    d = PDict entries /\ dict_lookup k entries = Some v /\ c v s = (Ok r, s').
Proof.
  intros H. destruct d; try done. unfold getitem in H.
  destruct (dict_lookup k entries) as [v |] eqn:E; [| done].
  by exists entries, v.
Qed.

Lemma bind_iterate_inv {B} ds (c : list pyval -> Py B) s r s' :
  bind (iterate ds) c s = (Ok r, s') ->
  exists items, iterate ds = ret items /\ c items s = (Ok r, s').
Proof.
  intros H. destruct (iterate_cases ds) as [[items Hit] | [e Hit]];
    rewrite Hit in H; [by exists items | done].
Qed.

Lemma for_each_inv {A B} (f : A -> Py B) xs s ys s' :
  for_each f xs s = (Ok ys, s') ->
  Forall2 (fun x y => exists t t', f x t = (Ok y, t')) xs ys.
Proof.
  revert s ys s'. induction xs as [| x xs IH]; intros s ys s' H; simpl in H.
  - injection H as <- _. constructor.
  - apply bind_inv in H as (y & s1 & Hy & H).
    apply bind_inv in H as (ys' & s2 & Hys & H).
    injection H as <- _. constructor; [by exists s, s1 | by eapply IH].
Qed.

Lemma StatusMessage_from_dict_inv d s m s' :
  StatusMessage_from_dict d s = (Ok m, s') -> message_loaded_from d m.
Proof.
  unfold StatusMessage_from_dict. intros H.
  apply bind_getitem_inv in H as (entries & v & -> & E1 & H).
  apply bind_getitem_inv in H as (? & t & [= <-] & E2 & H).
  exists entries, t. destruct (truthy t) eqn:Ht.
  - rewrite StatusMessage_init_truthy in H by done. by injection H as <- _.
  - rewrite StatusMessage_init_falsy in H by done. injection H as <- _.
    repeat split; try done. by eexists.
Qed.

Lemma for_each_messages_inv items s ms s' :
  for_each StatusMessage_from_dict items s = (Ok ms, s') ->
  Forall2 message_loaded_from items ms.
Proof.
  intros H. apply for_each_inv in H.
  eapply Forall2_impl; [exact H |]. simpl.
  intros d m (t & t' & Hd). by eapply StatusMessage_from_dict_inv.
Qed.

Lemma JobStatus_from_dict_inv d s j s' :
  JobStatus_from_dict d s = (Ok j, s') ->
  j = length (job_objs s)
  /\ exists o, job_objs s' = job_objs s ++ [o] /\ job_loaded_from d o.
Proof.
  destruct s as [n J P]. unfold JobStatus_from_dict. intros H.
  apply bind_getitem_inv in H as (entries & name & -> & E1 & H).
  erewrite bind_run in H by apply JobStatus_init_run.
  simpl job_objs in H; simpl clock_reads in H; simpl pipeline_objs in H.
  apply bind_getitem_inv in H as (? & state & [= <-] & E2 & H).
  erewrite bind_run in H by apply update_job_last.
  apply bind_getitem_inv in H as (? & st & [= <-] & E3 & H).
  erewrite bind_run in H by apply update_job_last.
  apply bind_getitem_inv in H as (? & ct & [= <-] & E4 & H).
  erewrite bind_run in H by apply update_job_last.
  apply bind_getitem_inv in H as (? & ft & [= <-] & E5 & H).
  erewrite bind_run in H by apply update_job_last.
  apply bind_getitem_inv in H as (? & ds & [= <-] & E6 & H).
  apply bind_iterate_inv in H as (items & Hit & H).
  apply bind_inv in H as (ms & [n1 J1 P1] & Hms & H).
  pose proof (for_each_messages_inv _ _ _ _ Hms) as Hall.
  destruct (for_each_messages_shape items
              (Store n (J ++ [JobStatus.set_fail_time ft
                 (JobStatus.set_complete_time ct
                    (JobStatus.set_start_time st
                       (JobStatus.set_state state
                          (JobStatus.mk name JobState.QUEUED PNone PNone PNone []))))]) P))
    as [(_ & HJ & HP) _].
  unfold after in HJ, HP. rewrite Hms in HJ, HP. simpl in HJ, HP.
  rewrite app_nil_r in HJ, HP. subst J1 P1.
  erewrite bind_run in H by apply update_job_last.
  injection H as <- <-. split; [done |]. eexists. split; [done |].
  by exists entries, ds, items.
Qed.

(** X11.  A [JobStatus.from_dict] that returns has been given a
    dictionary with the six keys of the projection, has created one
    job, and has stored in it the values found under [name], [state],
    [start_time], [complete_time] and [fail_time] exactly as they are:
    the state is not checked against the states of a job and the times
    are not checked to be times.  Each element of [messages] has given
    one message, in order, with the text of the clock for a time that
    is missing in the sense of [or]. *)
Theorem JobStatus_from_dict_stores_verbatim d s j s' :
  JobStatus_from_dict d s = (Ok j, s') ->
  j = length (job_objs s)
  /\ exists o, job_objs s' !! j = Some o /\ job_loaded_from d o.
Proof.
  intros H. destruct (JobStatus_from_dict_inv d s j s' H) as (-> & o & HJ & Ho).
  split; [done |]. exists o. split; [| done].
  rewrite HJ. by apply list_lookup_middle.
Qed.

Lemma for_each_jobs_inv items s rs s' :
  for_each JobStatus_from_dict items s = (Ok rs, s') ->
  Forall2 (fun item j => exists oj, job_objs s' !! j = Some oj /\ job_loaded_from item oj)
    items rs.
Proof.
  revert s rs s'. induction items as [| d items IH]; intros s rs s' H; simpl in H.
  - injection H as <- _. constructor.
  - apply bind_inv in H as (j & s1 & Hd & H).
    apply bind_inv in H as (rs' & s2 & Hrest & H).
    injection H as <- <-.
    destruct (JobStatus_from_dict_inv d s j s1 Hd) as (-> & o & HJ & Ho).
    destruct (for_each_jobs_shape items s1) as (js & (_ & HJ2 & _) & _).
    unfold after in HJ2. rewrite Hrest in HJ2. simpl in HJ2.
    constructor; [| by eapply IH].
    exists o. split; [| done]. rewrite HJ2, HJ.
    apply lookup_app_l_Some. by apply list_lookup_middle.
Qed.

(** X12.  A [PipelineStatus.from_dict] that returns has been given a
    dictionary with the seven keys of the projection, has created one
    pipeline, and has stored in it the values found under [name],
    [state] and the three times exactly as they are, with no check;
    [messages] holds one message for each element found under
    [messages] and [jobs] one new job, reconstructed in the same way,
    for each element found under [jobs], in order. *)
Theorem PipelineStatus_from_dict_stores_verbatim d s p s' :
  PipelineStatus_from_dict d s = (Ok p, s') ->
  p = length (pipeline_objs s)
  /\ exists o entries ds items djs jitems,
       pipeline_objs s' !! p = Some o
       /\ d = PDict entries
       /\ dict_lookup "name" entries = Some (PipelineStatus.name o)
       /\ dict_lookup "state" entries = Some (PipelineStatus.state o)
       /\ dict_lookup "start_time" entries = Some (PipelineStatus.start_time o)
       /\ dict_lookup "complete_time" entries = Some (PipelineStatus.complete_time o)
       /\ dict_lookup "fail_time" entries = Some (PipelineStatus.fail_time o)
       /\ dict_lookup "messages" entries = Some ds
       /\ iterate ds = ret items
       /\ Forall2 message_loaded_from items (PipelineStatus.messages o)
       /\ dict_lookup "jobs" entries = Some djs
       /\ iterate djs = ret jitems
       /\ Forall2
            (fun item j =>
               exists oj, job_objs s' !! j = Some oj /\ job_loaded_from item oj)
            jitems (PipelineStatus.jobs o).
Proof.
  destruct s as [n J P]. unfold PipelineStatus_from_dict. intros H.
  apply bind_getitem_inv in H as (entries & name & -> & E1 & H).
  erewrite bind_run in H by apply PipelineStatus_init_run.
  simpl job_objs in H; simpl clock_reads in H; simpl pipeline_objs in H.
  apply bind_getitem_inv in H as (? & state & [= <-] & E2 & H).
  erewrite bind_run in H by apply update_pipeline_last.
  apply bind_getitem_inv in H as (? & st & [= <-] & E3 & H).
  erewrite bind_run in H by apply update_pipeline_last.
  apply bind_getitem_inv in H as (? & ct & [= <-] & E4 & H).
  erewrite bind_run in H by apply update_pipeline_last.
  apply bind_getitem_inv in H as (? & ft & [= <-] & E5 & H).
  erewrite bind_run in H by apply update_pipeline_last.
  apply bind_getitem_inv in H as (? & ds & [= <-] & E6 & H).
  apply bind_iterate_inv in H as (items & Hit & H).
  apply bind_inv in H as (ms & [n1 J1 P1] & Hms & H).
  pose proof (for_each_messages_inv _ _ _ _ Hms) as Hall.
  match type of Hms with for_each _ _ ?s0 = _ =>
    destruct (for_each_messages_shape items s0) as [(_ & HJ & HP) _]
  end.
  unfold after in HJ, HP. rewrite Hms in HJ, HP. simpl in HJ, HP.
  rewrite app_nil_r in HJ, HP. subst J1 P1.
  erewrite bind_run in H by apply update_pipeline_last.
  apply bind_getitem_inv in H as (? & djs & [= <-] & E7 & H).
  apply bind_iterate_inv in H as (jitems & Hjit & H).
  apply bind_inv in H as (rs & [n2 J2 P2] & Hjs & H).
  pose proof (for_each_jobs_inv _ _ _ _ Hjs) as Halljobs.
  match type of Hjs with for_each _ _ ?s0 = _ =>
    destruct (for_each_jobs_shape jitems s0) as (js & (_ & HJ & HP) & _)
  end.
  unfold after in HJ, HP. rewrite Hjs in HJ, HP. simpl in HJ, HP.
  rewrite app_nil_r in HP. subst J2 P2.
  erewrite bind_run in H by apply update_pipeline_last.
  injection H as <- <-. split; [done |].
  eexists _, entries, ds, items, djs, jitems.
  split; [simpl; by apply list_lookup_middle |].
  simpl. by repeat split.
Qed.

(** *** The job of [add_job] seen through the pipeline *)

Lemma snapshot_inv s o v :
  snapshot s o = Some v ->
  mapM (job_at s) (PipelineStatus.jobs o) = Some (PipelineStatus.jobs v)
  /\ PipelineStatus.name v = PipelineStatus.name o
  /\ PipelineStatus.state v = PipelineStatus.state o
  /\ PipelineStatus.start_time v = PipelineStatus.start_time o
  /\ PipelineStatus.complete_time v = PipelineStatus.complete_time o
  /\ PipelineStatus.fail_time v = PipelineStatus.fail_time o
  /\ PipelineStatus.messages v = PipelineStatus.messages o
  /\ PipelineStatus._publish_callback v = PipelineStatus._publish_callback o.
Proof.
  unfold snapshot. intros H.
  destruct (mapM (job_at s) (PipelineStatus.jobs o)) as [js |]; [| done].
  simpl in H.
  destruct (match PipelineStatus._active_job o with
            | Some j => Some <$> job_at s j | None => Some None end); [| done].
  simpl in H. by injection H as <-.
Qed.

Lemma job_at_kept s s' l js :
  (forall j o, job_objs s !! j = Some o -> job_objs s' !! j = Some o) ->
  mapM (job_at s) l = Some js -> mapM (job_at s') l = Some js.
Proof.
  intros Hkept H. apply mapM_Some. apply mapM_Some in H.
  eapply Forall2_impl; [exact H |]. intros j o. apply Hkept.
Qed.

(** X13.  The job that [add_job] returns is the one that the pipeline
    holds, not a copy: a transition made on the returned job shows in
    the pipeline, whose last job and whose active job are that job in
    its new state, the other jobs and the other attributes of the
    pipeline being as before. *)
Theorem added_job_is_live tr s self o v name message :
  pipeline_objs s !! self = Some o ->
  snapshot s o = Some v ->
  exists s',
    (job <- PipelineStatus_add_job self name ;;
     JobStatus_transition tr job message) s = (Ok PNone, s')
    /\ pipeline_at s' self
       = Some (PipelineStatus.set__active_job
                 (Some (moved tr (logged message s) (fresh_job name)))
                 (PipelineStatus.set_jobs
                    (PipelineStatus.jobs v
                       ++ [moved tr (logged message s) (fresh_job name)])
                    v)).
Proof.
  intros Ho Hv.
  destruct (snapshot_inv s o v Hv) as (Hjobs & Hname & Hstate & Hst & Hct & Hft & Hm & Hcb).
  set (job := moved tr (logged message s) (fresh_job name)).
  set (o1 := PipelineStatus.set_jobs
               (PipelineStatus.jobs o ++ [length (job_objs s)])
               (PipelineStatus.set__active_job (Some (length (job_objs s))) o)).
  exists (Store (S (clock_reads s)) (job_objs s ++ [job])
            (<[self := o1]> (pipeline_objs s))).
  split.
  - erewrite bind_run by (by apply PipelineStatus_add_job_run).
    erewrite JobStatus_transition_run by (simpl; by apply list_lookup_middle).
    unfold put_job, tick. simpl. f_equal. f_equal.
    by rewrite (insert_app_r_alt (job_objs s) [fresh_job name] (length (job_objs s))),
      Nat.sub_diag.
  - unfold pipeline_at. simpl.
    rewrite list_lookup_insert_eq by (by eapply lookup_lt_Some). simpl.
    unfold snapshot. simpl.
    assert (mapM (job_at (Store (S (clock_reads s)) (job_objs s ++ [job])
                            (<[self := o1]> (pipeline_objs s))))
              (PipelineStatus.jobs o ++ [length (job_objs s)])
            = Some (PipelineStatus.jobs v ++ [job])) as ->.
    { apply mapM_Some. apply Forall2_app.
      - apply mapM_Some. eapply job_at_kept; [| exact Hjobs].
        intros j oj Hj. simpl. by apply lookup_app_l_Some.
      - constructor; [| constructor]. unfold job_at. simpl.
        by apply list_lookup_middle. }
    simpl. unfold job_at. simpl. rewrite list_lookup_middle by done. simpl.
    destruct v. simpl in *. by subst.
Qed.

(** *** What no call changes *)

Lemma keeps_identity_refl s : keeps_identity s s.
Proof. split; intros i o Ho; by exists o. Qed.

Lemma keeps_identity_trans s1 s2 s3 :
  keeps_identity s1 s2 -> keeps_identity s2 s3 -> keeps_identity s1 s3.
Proof.
  intros [HJ HP] [HJ' HP']. split.
  - intros j o Ho. destruct (HJ j o Ho) as (o1 & Ho1 & Hn1).
    destruct (HJ' j o1 Ho1) as (o2 & Ho2 & Hn2). exists o2. split; [done | congruence].
  - intros p o Ho. destruct (HP p o Ho) as (o1 & Ho1 & Hn1 & Hj1).
    destruct (HP' p o1 Ho1) as (o2 & Ho2 & Hn2 & Hj2). exists o2.
    split; [done |]. split; [congruence | by etrans].
Qed.

Lemma keeps_identity_extends s s' js ps : extends s s' js ps -> keeps_identity s s'.
Proof.
  intros (_ & HJ & HP). split; intros i o Ho; exists o.
  - rewrite HJ. split; [by apply lookup_app_l_Some | done].
  - rewrite HP. split; [by apply lookup_app_l_Some | done].
Qed.

Lemma keeps_identity_tick s : keeps_identity s (tick s).
Proof. split; intros i o Ho; by exists o. Qed.

Lemma keeps_identity_job s self o o' n :
  job_objs s !! self = Some o -> JobStatus.name o' = JobStatus.name o ->
  keeps_identity s (Store n (<[self := o']> (job_objs s)) (pipeline_objs s)).
Proof.
  intros Ho Hname. split; simpl; [| intros p op Hp; by exists op].
  intros j oj Hj. destruct (decide (j = self)) as [-> | Hne].
  - exists o'. split; [apply list_lookup_insert_eq; by eapply lookup_lt_Some |].
    congruence.
  - exists oj. by rewrite list_lookup_insert_ne.
Qed.

Lemma keeps_identity_pipeline s self o o' n js :
  pipeline_objs s !! self = Some o ->
  PipelineStatus.name o' = PipelineStatus.name o ->
  PipelineStatus.jobs o `prefix_of` PipelineStatus.jobs o' ->
  keeps_identity s (Store n (job_objs s ++ js) (<[self := o']> (pipeline_objs s))).
Proof.
  intros Ho Hname Hjobs. split; simpl.
  - intros j oj Hj. exists oj. split; [by apply lookup_app_l_Some | done].
  - intros p op Hp. destruct (decide (p = self)) as [-> | Hne].
    + exists o'. split; [apply list_lookup_insert_eq; by eapply lookup_lt_Some |].
      replace op with o by congruence. done.
    + exists op. by rewrite list_lookup_insert_ne.
Qed.

Lemma keeps_identity_pipeline' s self o o' n :
  pipeline_objs s !! self = Some o ->
  PipelineStatus.name o' = PipelineStatus.name o ->
  PipelineStatus.jobs o' = PipelineStatus.jobs o ->
  keeps_identity s (Store n (job_objs s) (<[self := o']> (pipeline_objs s))).
Proof.
  intros Ho Hname Hjobs.
  pose proof (keeps_identity_pipeline s self o o' n [] Ho Hname) as H.
  rewrite app_nil_r in H. apply H. by rewrite Hjobs.
Qed.

Lemma run_keeps_identity c s : keeps_identity s (run c s).
Proof.
  destruct c; simpl; unfold after.
  - destruct (StatusMessage_init_shape message time s) as (m & _ & _ & _ & Hext).
    by eapply keeps_identity_extends.
  - destruct (StatusMessage_from_dict_shape d s) as [Hext _].
    by eapply keeps_identity_extends.
  - rewrite JobStatus_init_run. simpl.
    apply (keeps_identity_extends _ _ [fresh_job name] []).
    split; [simpl; lia | split; simpl; [done | by rewrite app_nil_r]].
  - destruct (JobStatus_from_dict_shape d s) as (js & Hext & _).
    by eapply keeps_identity_extends.
  - destruct (job_objs s !! self) as [o |] eqn:Ho.
    + rewrite (JobStatus_add_message_run s self message o Ho). simpl.
      unfold put_job, tick; simpl. by eapply keeps_identity_job.
    + rewrite (JobStatus_add_message_invalid s self message Ho).
      apply keeps_identity_tick.
  - destruct (job_objs s !! self) as [o |] eqn:Ho.
    + run_with (JobStatus_transition_run Skip s self message o Ho). simpl.
      unfold put_job, tick; simpl. by eapply keeps_identity_job.
    + run_with (JobStatus_transition_invalid Skip s self message Ho).
      apply keeps_identity_tick.
  - destruct (job_objs s !! self) as [o |] eqn:Ho.
    + run_with (JobStatus_transition_run Started s self message o Ho). simpl.
      unfold put_job, tick; simpl. by eapply keeps_identity_job.
    + run_with (JobStatus_transition_invalid Started s self message Ho).
      apply keeps_identity_tick.
  - destruct (job_objs s !! self) as [o |] eqn:Ho.
    + run_with (JobStatus_transition_run Completed s self message o Ho). simpl.
      unfold put_job, tick; simpl. by eapply keeps_identity_job.
    + run_with (JobStatus_transition_invalid Completed s self message Ho).
      apply keeps_identity_tick.
  - destruct (job_objs s !! self) as [o |] eqn:Ho.
    + run_with (JobStatus_transition_run Failed s self message o Ho). simpl.
      unfold put_job, tick; simpl. by eapply keeps_identity_job.
    + run_with (JobStatus_transition_invalid Failed s self message Ho).
      apply keeps_identity_tick.
  - rewrite PipelineStatus_init_run. simpl.
    eapply (keeps_identity_extends _ _ [] [_]).
    split; [simpl; lia | split; simpl; [by rewrite app_nil_r | done]].
  - destruct (PipelineStatus_from_dict_shape d s) as (js & ps & Hext & _).
    by eapply keeps_identity_extends.
  - destruct (pipeline_objs s !! self) as [o |] eqn:Ho.
    + rewrite (PipelineStatus_set_publish_callback_run s self _ o Ho). simpl.
      unfold put_pipeline, tick; simpl. by eapply keeps_identity_pipeline'.
    + rewrite (PipelineStatus_set_publish_callback_invalid s self _ Ho).
      apply keeps_identity_refl.
  - unfold PipelineStatus_active_job, bind, read_pipeline.
    destruct (pipeline_objs s !! self); apply keeps_identity_refl.
  - destruct (pipeline_objs s !! self) as [o |] eqn:Ho.
    + rewrite (PipelineStatus_add_job_run s self name o Ho). simpl.
      eapply keeps_identity_pipeline; [done | done |]. simpl. by apply prefix_app_r.
    + rewrite (PipelineStatus_add_job_invalid s self name Ho). simpl.
      apply (keeps_identity_extends _ _ [fresh_job name] []).
      split; [simpl; lia | split; simpl; [done | by rewrite app_nil_r]].
  - destruct (pipeline_objs s !! self) as [o |] eqn:Ho.
    + rewrite (PipelineStatus_add_message_run s self message o Ho). simpl.
      unfold put_pipeline, tick; simpl. by eapply keeps_identity_pipeline'.
    + rewrite (PipelineStatus_add_message_invalid s self message Ho).
      apply keeps_identity_tick.
  - destruct (pipeline_objs s !! self) as [o |] eqn:Ho.
    + rewrite (PipelineStatus_start_run s self message o Ho). simpl.
      unfold put_pipeline, tick; simpl. by eapply keeps_identity_pipeline'.
    + destruct (PipelineStatus_transition_invalid s self message Ho) as (-> & _).
      apply keeps_identity_tick.
  - destruct (pipeline_objs s !! self) as [o |] eqn:Ho.
    + rewrite (PipelineStatus_complete_run s self message o Ho). simpl.
      unfold put_pipeline, tick; simpl. by eapply keeps_identity_pipeline'.
    + destruct (PipelineStatus_transition_invalid s self message Ho) as (_ & -> & _).
      apply keeps_identity_tick.
  - destruct (pipeline_objs s !! self) as [o |] eqn:Ho.
    + rewrite (PipelineStatus_fail_run s self message o Ho). simpl.
      unfold put_pipeline, tick; simpl. by eapply keeps_identity_pipeline'.
    + destruct (PipelineStatus_transition_invalid s self message Ho) as (_ & _ & ->).
      apply keeps_identity_tick.
Qed.

(** X14.  No sequence of constructions, reconstructions and method
    calls removes or renames an object or takes a job away from a
    pipeline: after any such sequence every job is still there under
    its name, and every pipeline is still there under its name, with
    the jobs it had, in the same order, at the head of its [jobs]. *)
Theorem runs_keep_identity cs s : keeps_identity s (runs cs s).
Proof.
  revert s. induction cs as [| c cs IH]; intros s; [apply keeps_identity_refl |].
  simpl. eapply keeps_identity_trans; [apply run_keeps_identity | apply IH].
Qed.

(** *** The jobs of a pipeline *)

(** X15.  In every store that constructions, reconstructions and method
    calls reach, the jobs and the active job of every pipeline are job
    objects of the store (no reference dangles), no job is twice in
    [jobs], and the snapshot of the pipeline is defined. *)
Theorem jobs_are_objects s p o :
  reachable s -> pipeline_objs s !! p = Some o ->
  Forall (fun j => is_Some (job_objs s !! j)) (PipelineStatus.jobs o)
  /\ NoDup (PipelineStatus.jobs o)
  /\ (forall j, PipelineStatus._active_job o = Some j -> is_Some (job_objs s !! j))
  /\ is_Some (pipeline_at s p).
Proof.
  intros Hs Ho. destruct (reachable_wf s Hs) as [_ HP].
  pose proof (Forall_lookup_1 _ _ _ _ HP Ho) as Hwf.
  destruct Hwf as (Hm & Hj & Ha & Hsorted). split; [| split; [| split]].
  - eapply Forall_impl; [exact Hj |]. intros j Hlt. by apply lookup_lt_is_Some.
  - clear Hj. induction Hsorted as [| j l _ IH Hall]; [constructor |].
    apply NoDup_cons. split; [| exact IH].
    intros Hin. rewrite Forall_forall in Hall. specialize (Hall j Hin). lia.
  - intros j Hj'. apply lookup_lt_is_Some. by apply Ha.
  - unfold pipeline_at. rewrite Ho. simpl. apply snapshot_defined.
    by split; [| split; [| split]].
Qed.









End Status.

(** ** The claims on sample data *)

Lemma sample_clock_ok : clock_ok sample_isotime.
Proof. intros n. unfold sample_isotime. simpl. discriminate. Qed.

Lemma demo_store_reachable : reachable sample_isotime demo_store.
Proof.
  change demo_store with
    (run sample_isotime (AddJob 0 (PStr "job1"))
       (run sample_isotime (NewPipelineStatus (PStr "demo")) empty_store)).
  repeat constructor.
Qed.

Lemma example_store_reachable : reachable sample_isotime example_store.
Proof.
  change example_store with
    (run sample_isotime (LoadPipelineStatus example_doc) empty_store).
  by repeat constructor.
Qed.

(** C1, as it is stated, fails: a pipeline with an active job comes back
    from its projection without one.  After [PipelineStatus("demo")] and
    [add_job("job1")] the active job is [job1]; the reconstruction from
    the projection has the same seven attributes and no active job. *)
Lemma round_trip_drops_active_job :
  reachable sample_isotime demo_store
  /\ pipeline_at demo_store 0 = Some demo_snapshot
  /\ PipelineStatus_serialize demo_store 0 = Some demo_doc
  /\ PipelineStatus_from_dict sample_isotime demo_doc demo_store
     = (Ok 1, demo_reloaded_store)
  /\ pipeline_at demo_reloaded_store 1 = Some demo_reconstructed
  /\ PipelineStatus._active_job demo_snapshot = Some job1
  /\ PipelineStatus._active_job demo_reconstructed = None
  /\ demo_reconstructed <> demo_snapshot.
Proof.
  split; [exact demo_store_reachable |].
  repeat split; try reflexivity; discriminate.
Qed.

Lemma round_trip_witness :
  clock_ok sample_isotime
  /\ reachable sample_isotime example_store
  /\ pipeline_objs example_store !! 0 = Some example_pipeline
  /\ exists v d p' t',
       pipeline_at example_store 0 = Some v
       /\ PipelineStatus_serialize example_store 0 = Some d
       /\ PipelineStatus_from_dict sample_isotime d example_store = (Ok p', t')
       /\ pipeline_at t' p' = Some (public v)
       /\ PipelineStatus_serialize t' p' = Some d.
Proof.
  split; [exact sample_clock_ok |].
  split; [exact example_store_reachable |].
  split; [reflexivity |].
  apply (proj2 (proj2 (round_trip sample_isotime sample_clock_ok))
           example_store 0 example_pipeline example_store);
    [exact example_store_reachable | reflexivity].
Defined.

(** C2, as it is stated, fails: a reconstructed pipeline has jobs and no
    active job. *)
Lemma reconstructed_pipeline_has_no_active_job :
  PipelineStatus_from_dict sample_isotime example_doc empty_store
  = (Ok 0, example_store)
  /\ reachable sample_isotime example_store
  /\ pipeline_objs example_store !! 0 = Some example_pipeline
  /\ PipelineStatus._active_job example_pipeline = None
  /\ PipelineStatus.jobs example_pipeline = [0]
  /\ ~ tracks_jobs example_pipeline.
Proof.
  split; [reflexivity |]. split; [exact example_store_reachable |].
  repeat split. discriminate.
Qed.

Lemma active_job_tracking_witness :
  (exists o,
      pipeline_objs
        (runs sample_isotime
           [AddJob 0 (PStr "job1"); JobStart 0 (PStr "Job started");
            AddJob 0 (PStr "job2")]
           (after (PipelineStatus_init (PStr "demo")) empty_store))
        !! 0 = Some o
      /\ tracks_jobs o)
  /\ reachable sample_isotime example_store
  /\ pipeline_objs example_store !! 0 = Some example_pipeline
  /\ tracks_last example_pipeline.
Proof.
  split.
  - apply (proj1 (active_job_tracking sample_isotime) empty_store (PStr "demo")).
  - split; [exact example_store_reachable |]. split; [reflexivity |].
    apply (proj1 (proj2 (active_job_tracking sample_isotime))
             example_store 0 example_pipeline);
      [exact example_store_reachable | reflexivity].
Defined.

(** C3, as it is stated, fails: [start()] logs a message stamped by the
    clock and returns [None], not the timestamp. *)
Lemma start_returns_None :
  JobStatus_start sample_isotime 0 (PStr "Job started") job_store
  = (Ok PNone,
     Store 1
       [JobStatus.mk (PStr "job1") JobState.RUNNING (PStr "2024-01-01T00:00:00")
          PNone PNone
          [StatusMessage.mk (PStr "Job started") (PStr "2024-01-01T00:00:00")]]
       [])
  /\ PNone <> PStr "2024-01-01T00:00:00".
Proof. split; [reflexivity | discriminate]. Qed.

Lemma transition_witness :
  job_objs job_store !! 0 = Some job1
  /\ exists s' o',
       JobStatus_transition sample_isotime Completed 0 (PStr "done") job_store
       = (Ok PNone, s')
       /\ job_objs s' !! 0 = Some o'
       /\ JobStatus.messages o' =
            JobStatus.messages job1
              ++ [StatusMessage.mk (PStr "done") (stamp sample_isotime job_store)]
       /\ fst (JobStatus_add_message sample_isotime 0 (PStr "done") job_store)
          = Ok (stamp sample_isotime job_store)
       /\ (JobStatus.state o' = JobState.COMPLETE
           /\ JobStatus.complete_time o' = stamp sample_isotime job_store).
Proof.
  split; [reflexivity |].
  apply (transition_appends_and_returns_None sample_isotime Completed
           job_store 0 job1 (PStr "done")).
  reflexivity.
Defined.

Lemma from_dict_missing_key_witness :
  dict_lookup "time" [("message", PStr "hello")] = None
  /\ In "time" StatusMessage_attributes
  /\ exists k',
       dict_lookup k' [("message", PStr "hello")] = None
       /\ fst (StatusMessage_from_dict sample_isotime
                 (PDict [("message", PStr "hello")]) empty_store)
          = Raise (KeyError k').
Proof.
  split; [reflexivity |]. split; [simpl; auto |].
  apply (proj1 (from_dict_missing_key sample_isotime
                  [("message", PStr "hello")] "time" empty_store eq_refl)).
  simpl; auto.
Defined.

Lemma publish_without_callback_witness :
  pipeline_objs quiet_store !! 0
  = Some (PipelineStatus.mk (PStr "demo") PipelineState.QUEUED
            PNone PNone PNone [] [] None None)
  /\ PipelineStatus_publish sample_invoke sample_truth_value 0 quiet_store
     = (Ok PNone, quiet_store).
Proof.
  split; [reflexivity |].
  apply (publish_without_callback sample_invoke sample_truth_value quiet_store 0
           (PipelineStatus.mk (PStr "demo") PipelineState.QUEUED
              PNone PNone PNone [] [] None None));
    reflexivity.
Defined.



(** The two callbacks at work: the exception of the failing one comes
    out of [publish()], and what the other one does to the pipeline it
    is given shows in the store. *)
Example publish_raises :
  PipelineStatus_publish sample_invoke sample_truth_value 0 failing_store
  = (Raise (Exception (PStr "monitor unreachable")), failing_store).
Proof. reflexivity. Qed.

Example publish_passes_the_pipeline :
  PipelineStatus_publish sample_invoke sample_truth_value 0 watched_store
  = (Ok PNone, seen_store).
Proof. reflexivity. Qed.

Lemma start_then_fail_witness :
  job_objs job_store !! 0 = Some job1
  /\ exists s1 s2 o2,
       JobStatus_start sample_isotime 0 (PStr "Job started") job_store = (Ok PNone, s1)
       /\ JobStatus_fail sample_isotime 0 (PStr "Job failed") s1 = (Ok PNone, s2)
       /\ job_objs s2 !! 0 = Some o2
       /\ JobStatus.state o2 = JobState.FAILED
       /\ JobStatus.start_time o2 = stamp sample_isotime job_store
       /\ JobStatus.fail_time o2 = stamp sample_isotime s1
       /\ JobStatus.messages o2 =
            JobStatus.messages job1
              ++ [StatusMessage.mk (PStr "Job started") (JobStatus.start_time o2);
                  StatusMessage.mk (PStr "Job failed") (JobStatus.fail_time o2)]
       /\ JobStatus.start_time o2 <> PNone
       /\ JobStatus.fail_time o2 <> PNone.
Proof.
  split; [reflexivity |].
  apply (proj1 (start_then_fail sample_isotime job_store 0 job1
                  (PStr "Job started") (PStr "Job failed") eq_refl)).
Defined.

Example job1_started_then_failed :
  after (JobStatus_fail sample_isotime 0 (PStr "Job failed"))
    (after (JobStatus_start sample_isotime 0 (PStr "Job started")) job_store)
  = Store 2
      [JobStatus.mk (PStr "job1") JobState.FAILED (PStr "2024-01-01T00:00:00")
         PNone (PStr "2024-01-01T00:00:01")
         [StatusMessage.mk (PStr "Job started") (PStr "2024-01-01T00:00:00");
          StatusMessage.mk (PStr "Job failed") (PStr "2024-01-01T00:00:01")]]
      [].
Proof. reflexivity. Qed.

(** C9, as it is stated, fails: the empty text, supplied as [time], is
    not kept; the message gets the text of the clock. *)
Lemma empty_time_is_replaced :
  StatusMessage_init sample_isotime (PStr "restored") (PStr "") empty_store
  = (Ok (StatusMessage.mk (PStr "restored") (PStr "2024-01-01T00:00:00")),
     Store 1 [] [])
  /\ PStr "2024-01-01T00:00:00" <> PStr "".
Proof. split; [reflexivity | discriminate]. Qed.

Lemma from_dict_resets_private_witness :
  PipelineStatus_from_dict sample_isotime example_doc empty_store
  = (Ok 0, example_store)
  /\ exists o,
       pipeline_objs example_store !! 0 = Some o
       /\ PipelineStatus._active_job o = None
       /\ PipelineStatus._publish_callback o = None
       /\ PipelineStatus_active_job 0 example_store = (Ok None, example_store)
       /\ PipelineStatus_publish sample_invoke sample_truth_value 0 example_store
          = (Ok PNone, example_store).
Proof.
  split; [reflexivity |].
  apply (from_dict_resets_private sample_isotime sample_invoke sample_truth_value
           example_doc empty_store 0 example_store).
  reflexivity.
Defined.

(** The scenario of a whole run: a pipeline is created and started, a
    job is added, started and completed, the pipeline is completed; the
    projection of the result, reconstructed and projected again, is the
    same document. *)
Example end_to_end :
  exists d,
    PipelineStatus_serialize
      (fold_left (fun s c => run sample_isotime c s)
         [NewPipelineStatus (PStr "demo"); Start 0 (PStr "Pipeline started");
          AddJob 0 (PStr "job1"); JobStart 0 (PStr "Job started");
          JobComplete 0 (PStr "Job completed");
          Complete 0 (PStr "Pipeline completed")]
         empty_store) 0 = Some d
    /\ PipelineStatus_serialize
         (after (PipelineStatus_from_dict sample_isotime d)
            (fold_left (fun s c => run sample_isotime c s)
               [NewPipelineStatus (PStr "demo"); Start 0 (PStr "Pipeline started");
                AddJob 0 (PStr "job1"); JobStart 0 (PStr "Job started");
                JobComplete 0 (PStr "Job completed");
                Complete 0 (PStr "Pipeline completed")]
               empty_store)) 1 = Some d
    /\ d = PDict
             [("name", PStr "demo"); ("state", PStr "COMPLETE");
              ("start_time", PStr "2024-01-01T00:00:00");
              ("complete_time", PStr "2024-01-01T00:00:03");
              ("fail_time", PNone);
              ("messages",
               PList [PDict [("message", PStr "Pipeline started");
                             ("time", PStr "2024-01-01T00:00:00")];
                      PDict [("message", PStr "Pipeline completed");
                             ("time", PStr "2024-01-01T00:00:03")]]);
              ("jobs",
               PList [PDict [("name", PStr "job1"); ("state", PStr "COMPLETE");
                             ("start_time", PStr "2024-01-01T00:00:01");
                             ("complete_time", PStr "2024-01-01T00:00:02");
                             ("fail_time", PNone);
                             ("messages",
                              PList [PDict [("message", PStr "Job started");
                                            ("time", PStr "2024-01-01T00:00:01")];
                                     PDict [("message", PStr "Job completed");
                                            ("time", PStr "2024-01-01T00:00:02")]])]])].
Proof. eexists. split; [vm_compute; reflexivity |]. split; reflexivity. Qed.

(** ** The further properties on sample data *)

Lemma add_message_keeps_order_witness :
  job_objs job_store !! 0 = Some job1
  /\ exists s' o',
       for_each (JobStatus_add_message sample_isotime 0)
         [PStr "reading"; PStr "resizing"; PStr "writing"] job_store
       = (Ok (map StatusMessage.time
                (stamped sample_isotime (clock_reads job_store)
                   [PStr "reading"; PStr "resizing"; PStr "writing"])), s')
       /\ job_objs s' !! 0 = Some o'
       /\ JobStatus.messages o'
          = JobStatus.messages job1
              ++ stamped sample_isotime (clock_reads job_store)
                   [PStr "reading"; PStr "resizing"; PStr "writing"]
       /\ clock_reads s' = clock_reads job_store + 3.
Proof.
  split; [reflexivity |].
  apply (proj1 (add_message_keeps_order sample_isotime
                  [PStr "reading"; PStr "resizing"; PStr "writing"] job_store)
           0 job1).
  reflexivity.
Defined.

Lemma add_job_keeps_order_witness :
  pipeline_objs demo_store !! 0 = Some demo_pipeline
  /\ exists s' o',
       for_each (PipelineStatus_add_job 0) [PStr "job2"; PStr "job3"] demo_store
       = (Ok (seq (length (job_objs demo_store)) 2), s')
       /\ job_objs s' = job_objs demo_store ++ map fresh_job [PStr "job2"; PStr "job3"]
       /\ pipeline_objs s' !! 0 = Some o'
       /\ PipelineStatus.jobs o'
          = PipelineStatus.jobs demo_pipeline ++ seq (length (job_objs demo_store)) 2
       /\ PipelineStatus._active_job o'
          = match last (seq (length (job_objs demo_store)) 2) with
            | Some j => Some j
            | None => PipelineStatus._active_job demo_pipeline
            end
       /\ clock_reads s' = clock_reads demo_store.
Proof.
  split; [reflexivity |].
  apply (add_job_keeps_order [PStr "job2"; PStr "job3"] demo_store 0 demo_pipeline).
  reflexivity.
Defined.

Lemma pipeline_transition_logs_witness :
  pipeline_objs demo_store !! 0 = Some demo_pipeline
  /\ exists s' o',
       PipelineStatus_transition sample_isotime PFailed 0 (PStr "Pipeline failed")
         demo_store = (Ok PNone, s')
       /\ pipeline_objs s' !! 0 = Some o'
       /\ PipelineStatus.messages o'
          = PipelineStatus.messages demo_pipeline
              ++ [StatusMessage.mk (PStr "Pipeline failed")
                    (stamp sample_isotime demo_store)]
       /\ (PipelineStatus.state o' = PipelineState.FAILED
           /\ PipelineStatus.start_time o' = PipelineStatus.start_time demo_pipeline
           /\ PipelineStatus.complete_time o'
              = PipelineStatus.complete_time demo_pipeline
           /\ PipelineStatus.fail_time o' = stamp sample_isotime demo_store)
       /\ PipelineStatus.name o' = PipelineStatus.name demo_pipeline
       /\ PipelineStatus.jobs o' = PipelineStatus.jobs demo_pipeline
       /\ PipelineStatus._active_job o' = PipelineStatus._active_job demo_pipeline
       /\ PipelineStatus._publish_callback o'
          = PipelineStatus._publish_callback demo_pipeline
       /\ job_objs s' = job_objs demo_store
       /\ (forall p, p <> 0 -> pipeline_objs s' !! p = pipeline_objs demo_store !! p).
Proof.
  split; [reflexivity |].
  apply (pipeline_transition_logs sample_isotime PFailed demo_store 0 demo_pipeline
           (PStr "Pipeline failed")).
  reflexivity.
Defined.

Lemma job_transition_frame_witness :
  job_objs demo_store !! 0 = Some job1
  /\ exists o',
       job_objs (after (JobStatus_transition sample_isotime Failed 0 (PStr "Job failed"))
                   demo_store) !! 0 = Some o'
       /\ JobStatus.name o' = JobStatus.name job1
       /\ (Failed <> Started -> JobStatus.start_time o' = JobStatus.start_time job1)
       /\ (Failed <> Completed ->
           JobStatus.complete_time o' = JobStatus.complete_time job1)
       /\ (Failed <> Failed -> JobStatus.fail_time o' = JobStatus.fail_time job1)
       /\ pipeline_objs
            (after (JobStatus_transition sample_isotime Failed 0 (PStr "Job failed"))
               demo_store)
          = pipeline_objs demo_store
       /\ (forall j, j <> 0 ->
             job_objs
               (after (JobStatus_transition sample_isotime Failed 0 (PStr "Job failed"))
                  demo_store) !! j
             = job_objs demo_store !! j).
Proof.
  split; [reflexivity |].
  apply (job_transition_frame sample_isotime Failed demo_store 0 job1 (PStr "Job failed")).
  reflexivity.
Defined.

(** A job fails and its pipeline stays as it was, QUEUED. *)
Example failed_job_in_queued_pipeline :
  after (JobStatus_fail sample_isotime 0 (PStr "Job failed")) demo_store
  = Store 1
      [JobStatus.mk (PStr "job1") JobState.FAILED PNone PNone
         (PStr "2024-01-01T00:00:00")
         [StatusMessage.mk (PStr "Job failed") (PStr "2024-01-01T00:00:00")]]
      [demo_pipeline].
Proof. reflexivity. Qed.

Lemma add_job_frame_witness :
  pipeline_objs demo_store !! 0 = Some demo_pipeline
  /\ (forall j oj,
        job_objs demo_store !! j = Some oj ->
        job_objs (after (PipelineStatus_add_job 0 (PStr "job2")) demo_store) !! j
        = Some oj)
  /\ clock_reads (after (PipelineStatus_add_job 0 (PStr "job2")) demo_store)
     = clock_reads demo_store.
Proof.
  split; [reflexivity |].
  pose proof (add_job_frame demo_store 0 demo_pipeline (PStr "job2") eq_refl)
    as (Hjobs & Hclock & _).
  exact (conj Hjobs Hclock).
Defined.

Lemma set_publish_callback_replaces_witness :
  pipeline_objs watched_store !! 0
  = Some (PipelineStatus.mk (PStr "demo") PipelineState.QUEUED
            PNone PNone PNone [] [] (Some 1) None)
  /\ (PipelineStatus_set_publish_callback 0 (Some 1) ;;
      PipelineStatus_set_publish_callback 0 (Some 0) ;;
      PipelineStatus_publish sample_invoke sample_truth_value 0) watched_store
     = (PipelineStatus_set_publish_callback 0 (Some 0) ;;
        PipelineStatus_publish sample_invoke sample_truth_value 0) watched_store.
Proof.
  split; [reflexivity |].
  apply (proj1 (proj2 (proj2 (set_publish_callback_replaces
                                sample_invoke sample_truth_value watched_store 0
                                (PipelineStatus.mk (PStr "demo") PipelineState.QUEUED
                                   PNone PNone PNone [] [] (Some 1) None)
                                (Some 1) (Some 0) eq_refl)))).
Defined.

(** The marking callback is replaced by the failing one: [publish()]
    raises and the pipeline is not marked. *)
Example replaced_callback_is_not_called :
  (PipelineStatus_set_publish_callback 0 (Some 0) ;;
   PipelineStatus_publish sample_invoke sample_truth_value 0) watched_store
  = (Raise (Exception (PStr "monitor unreachable")), failing_store).
Proof. reflexivity. Qed.

Lemma from_dict_reads_only_its_keys_witness :
  (forall k,
      In k StatusMessage_attributes ->
      dict_lookup k [("time", PStr "2024-01-01T00:00:07"); ("level", PStr "info");
                     ("message", PStr "hello")]
      = dict_lookup k [("message", PStr "hello"); ("time", PStr "2024-01-01T00:00:07")])
  /\ StatusMessage_from_dict sample_isotime
       (PDict [("time", PStr "2024-01-01T00:00:07"); ("level", PStr "info");
               ("message", PStr "hello")]) empty_store
     = StatusMessage_from_dict sample_isotime
         (PDict [("message", PStr "hello"); ("time", PStr "2024-01-01T00:00:07")])
         empty_store.
Proof.
  assert (forall k,
             In k StatusMessage_attributes ->
             dict_lookup k [("time", PStr "2024-01-01T00:00:07"); ("level", PStr "info");
                            ("message", PStr "hello")]
             = dict_lookup k [("message", PStr "hello");
                              ("time", PStr "2024-01-01T00:00:07")]) as H.
  { intros k [<- | [<- | []]]; reflexivity. }
  split; [exact H |].
  exact (proj1 (from_dict_reads_only_its_keys sample_isotime _ _ empty_store) H).
Defined.

Lemma from_dict_of_non_dict_witness :
  (forall entries, PList [PStr "demo"] <> PDict entries)
  /\ StatusMessage_from_dict sample_isotime (PList [PStr "demo"]) job_store
     = (Raise TypeError, job_store)
  /\ JobStatus_from_dict sample_isotime (PList [PStr "demo"]) job_store
     = (Raise TypeError, job_store)
  /\ PipelineStatus_from_dict sample_isotime (PList [PStr "demo"]) job_store
     = (Raise TypeError, job_store).
Proof.
  split; [discriminate |].
  apply (from_dict_of_non_dict sample_isotime (PList [PStr "demo"]) job_store).
  discriminate.
Defined.

Lemma from_dict_messages_not_a_list_witness :
  JobStatus_from_dict sample_isotime
    (PDict [("name", PStr "job1"); ("state", PStr "QUEUED"); ("start_time", PNone);
            ("complete_time", PNone); ("fail_time", PNone); ("messages", PStr "")])
    empty_store
  = (Ok 0, Store 0 [job1] []).
Proof.
  exact (from_dict_messages_not_a_list sample_isotime
           [("name", PStr "job1"); ("state", PStr "QUEUED"); ("start_time", PNone);
            ("complete_time", PNone); ("fail_time", PNone); ("messages", PStr "")]
           empty_store (PStr "job1") (PStr "QUEUED") PNone PNone PNone (PStr "")
           eq_refl eq_refl eq_refl eq_refl eq_refl eq_refl).
Defined.

Lemma JobStatus_from_dict_stores_verbatim_witness :
  JobStatus_from_dict sample_isotime
    (PDict [("name", PStr "job1"); ("state", PStr "PAUSED"); ("start_time", PInt 7);
            ("complete_time", PNone); ("fail_time", PNone);
            ("messages", PList [PDict [("message", PStr "hello"); ("time", PNone)]])])
    empty_store
  = (Ok 0,
     Store 1
       [JobStatus.mk (PStr "job1") (PStr "PAUSED") (PInt 7) PNone PNone
          [StatusMessage.mk (PStr "hello") (PStr "2024-01-01T00:00:00")]]
       [])
  /\ 0 = length (job_objs empty_store)
  /\ exists o,
       job_objs
         (Store 1
            [JobStatus.mk (PStr "job1") (PStr "PAUSED") (PInt 7) PNone PNone
               [StatusMessage.mk (PStr "hello") (PStr "2024-01-01T00:00:00")]]
            []) !! 0 = Some o
       /\ job_loaded_from sample_isotime
            (PDict [("name", PStr "job1"); ("state", PStr "PAUSED");
                    ("start_time", PInt 7); ("complete_time", PNone);
                    ("fail_time", PNone);
                    ("messages",
                     PList [PDict [("message", PStr "hello"); ("time", PNone)]])])
            o.
Proof.
  split; [reflexivity |].
  apply (JobStatus_from_dict_stores_verbatim sample_isotime _ empty_store 0 _).
  reflexivity.
Defined.

Lemma PipelineStatus_from_dict_stores_verbatim_witness :
  PipelineStatus_from_dict sample_isotime example_doc empty_store
  = (Ok 0, example_store)
  /\ 0 = length (pipeline_objs empty_store)
  /\ exists o,
       pipeline_objs example_store !! 0 = Some o
       /\ dict_lookup "state"
            match example_doc with PDict entries => entries | _ => [] end
          = Some (PipelineStatus.state o).
Proof.
  split; [reflexivity |].
  destruct (PipelineStatus_from_dict_stores_verbatim sample_isotime example_doc
              empty_store 0 example_store eq_refl)
    as (Hp & o & entries & ds & items & djs & jitems & Ho & Hd & _ & Hstate & _).
  split; [exact Hp |]. exists o. split; [exact Ho |].
  rewrite Hd. exact Hstate.
Defined.

Lemma added_job_is_live_witness :
  pipeline_objs demo_store !! 0 = Some demo_pipeline
  /\ snapshot demo_store demo_pipeline = Some demo_snapshot
  /\ exists s',
       (job <- PipelineStatus_add_job 0 (PStr "job2") ;;
        JobStatus_transition sample_isotime Started job (PStr "Job started")) demo_store
       = (Ok PNone, s')
       /\ pipeline_at s' 0
          = Some (PipelineStatus.set__active_job
                    (Some (moved Started (logged sample_isotime (PStr "Job started")
                                            demo_store)
                             (fresh_job (PStr "job2"))))
                    (PipelineStatus.set_jobs
                       (PipelineStatus.jobs demo_snapshot
                          ++ [moved Started
                                (logged sample_isotime (PStr "Job started") demo_store)
                                (fresh_job (PStr "job2"))])
                       demo_snapshot)).
Proof.
  split; [reflexivity |]. split; [reflexivity |].
  apply (added_job_is_live sample_isotime Started demo_store 0 demo_pipeline
           demo_snapshot (PStr "job2") (PStr "Job started"));
    reflexivity.
Defined.

Lemma jobs_are_objects_witness :
  reachable sample_isotime demo_store
  /\ pipeline_objs demo_store !! 0 = Some demo_pipeline
  /\ Forall (fun j => is_Some (job_objs demo_store !! j))
       (PipelineStatus.jobs demo_pipeline)
  /\ NoDup (PipelineStatus.jobs demo_pipeline)
  /\ (forall j,
        PipelineStatus._active_job demo_pipeline = Some j ->
        is_Some (job_objs demo_store !! j))
  /\ is_Some (pipeline_at demo_store 0).
Proof.
  split; [exact demo_store_reachable |]. split; [reflexivity |].
  apply (jobs_are_objects sample_isotime demo_store 0 demo_pipeline);
    [exact demo_store_reachable | reflexivity].
Defined.


(** A callable that is false is registered in place of the marking
    callback: [publish()] calls neither. *)
Example registered_false_callable_is_skipped :
  (PipelineStatus_set_publish_callback 0 (Some 2) ;;
   PipelineStatus_publish sample_invoke sample_truth_value 0) watched_store
  = (Ok PNone, muted_store).
Proof. reflexivity. Qed.
